(** * Lemon: a terminal file browser (src/Lemon.py)

    A shallow embedding of the tree controller of the Lemon file manager:
    the lazy loader [load_children], the refresh, open and delete handlers,
    and the delete confirmation callback.  Python objects live in an object
    store (a list indexed by object identity), handlers are computations in
    a state-and-exception monad over the application state, and the host
    filesystem is an explicit component of that state. *)

From Stdlib Require Import String Ascii NArith.
From stdpp Require Import base option list numbers sorting.

Local Open Scope N_scope.

(** ** Python strings

    A Python [str] is a sequence of Unicode code points.  Literals of the
    source are written as UTF-8 string literals and decoded by [py]. *)

Abbreviation pystr := (list N).

Fixpoint utf8_decode (bs : list N) : list N :=
  match bs with
  | [] => []
  | b :: r =>
    if b <? 128 then b :: utf8_decode r
    else if b <? 224 then
      match r with
      | b1 :: r' => ((b - 192) * 64 + (b1 - 128)) :: utf8_decode r'
      | _ => []
      end
    else if b <? 240 then
      match r with
      | b1 :: b2 :: r' =>
        ((b - 224) * 4096 + (b1 - 128) * 64 + (b2 - 128)) :: utf8_decode r'
      | _ => []
      end
    else
      match r with
      | b1 :: b2 :: b3 :: r' =>
        ((b - 240) * 262144 + (b1 - 128) * 4096 + (b2 - 128) * 64 + (b3 - 128))
          :: utf8_decode r'
      | _ => []
      end
  end.

Definition py (x : string) : pystr :=
  utf8_decode (N_of_ascii <$> list_ascii_of_string x).
Arguments py x%_string : simpl never.

(** [str.lower] follows the Unicode case tables of the interpreter; the
    development is parametric in it. *)
Class StrLower := str_lower : pystr → pystr.

(** Lowering of the ASCII letters only, used for the concrete scenarios. *)
Definition ascii_lower (x : pystr) : pystr :=
  (λ c, if (65 <=? c) && (c <=? 90) then c + 32 else c) <$> x.

(** [a < b] on [str]: lexicographic on code points. *)
Fixpoint str_ltb (a b : pystr) : bool :=
  match a, b with
  | _, [] => false
  | [], _ :: _ => true
  | x :: a', y :: b' => if x =? y then str_ltb a' b' else x <? y
  end.

(** [s.endswith(suffix)] *)
Definition endswith (x suffix : pystr) : bool :=
  bool_decide (drop (length x - length suffix)%nat x = suffix).

Local Close Scope N_scope.

(** ** Exceptions

    The classes the handlers of the source tell apart.  All of them derive
    from [Exception]; [OtherError] stands for every class that is neither of
    the three named ones. *)

Inductive exn_class := PermissionError | FileNotFoundError | AttributeError | OtherError.

Record exn := Exn { e_class : exn_class; e_str : pystr }.

Inductive outcome (A : Type) :=
| Return (a : A)
| Raise (e : exn).
Arguments Return {A} a.
Arguments Raise {A} e.

Global Instance exn_class_eq_dec : EqDecision exn_class.
Proof. solve_decision. Defined.
Global Instance exn_eq_dec : EqDecision exn.
Proof. solve_decision. Defined.

(** ** Paths (pathlib.Path) *)

Record Path := MkPath { anchor : pystr; parts : list pystr }.

Global Instance Path_eq_dec : EqDecision Path.
Proof. solve_decision. Defined.

(** [p.name]: the final component, empty for an anchor. *)
Definition name (p : Path) : pystr := List.last (parts p) [].

(** [p / n] *)
Definition joinpath (p : Path) (n : pystr) : Path :=
  MkPath (anchor p) (parts p ++ [n]).

Fixpoint join (sep : pystr) (l : list pystr) : pystr :=
  match l with
  | [] => []
  | [x] => x
  | x :: l' => x ++ sep ++ join sep l'
  end.

(** [str(p)] *)
Definition path_str (p : Path) : pystr :=
  anchor p ++ join (if endswith (anchor p) (py "\") then py "\" else py "/") (parts p).

(** [q] is an entry of the directory [p]. *)
Definition is_entry_of (p q : Path) : bool :=
  bool_decide (anchor q = anchor p ∧ parts q ≠ [] ∧ removelast (parts q) = parts p).

(** [q] is [p] or lies below it. *)
Definition is_under (p q : Path) : bool :=
  bool_decide (anchor q = anchor p ∧ take (length (parts p)) (parts q) = parts p).

(** ** The host filesystem

    The filesystem is the environment of the program.  It is an association
    list from paths to inodes; the order of the list is the order in which
    the operating system enumerates directory entries.  Each inode carries
    the faults the operating system answers with: on [stat] (used by
    [is_dir], [is_file] and [exists]), on listing and on removal. *)

Inductive fkind := KFile | KDir.

Global Instance fkind_eq_dec : EqDecision fkind.
Proof. solve_decision. Defined.

Record inode := Inode {
  i_kind : fkind;
  i_stat : option exn;
  i_list : option exn;
  i_del : option exn
}.

Abbreviation filesystem := (list (Path * inode)).

Fixpoint fs_lookup (fs : filesystem) (p : Path) : option inode :=
  match fs with
  | [] => None
  | (q, i) :: fs' => if decide (q = p) then Some i else fs_lookup fs' p
  end.

(** [stat]: a missing path is not an error for the three predicates below
    (pathlib ignores ENOENT), any other fault is raised. *)
Definition fs_stat (fs : filesystem) (p : Path) : outcome (option fkind) :=
  match fs_lookup fs p with
  | None => Return None
  | Some i =>
    match i_stat i with
    | Some e => Raise e
    | None => Return (Some (i_kind i))
    end
  end.

Definition fs_is_dir (fs : filesystem) (p : Path) : outcome bool :=
  match fs_stat fs p with
  | Return k => Return (bool_decide (k = Some KDir))
  | Raise e => Raise e
  end.

Definition fs_is_file (fs : filesystem) (p : Path) : outcome bool :=
  match fs_stat fs p with
  | Return k => Return (bool_decide (k = Some KFile))
  | Raise e => Raise e
  end.

Definition fs_exists (fs : filesystem) (p : Path) : outcome bool :=
  match fs_stat fs p with
  | Return k => Return (bool_decide (k ≠ None))
  | Raise e => Raise e
  end.

Definition fs_entries (fs : filesystem) (p : Path) : list Path :=
  filter (λ q, is_entry_of p q = true) (fs.*1).

(** [p.iterdir()], consumed to the end. *)
Definition fs_iterdir (fs : filesystem) (p : Path) : outcome (list Path) :=
  match fs_lookup fs p with
  | None => Raise (Exn FileNotFoundError (py "[Errno 2] No such file or directory"))
  | Some i =>
    match i_list i, i_kind i with
    | Some e, _ => Raise e
    | None, KFile => Raise (Exn OtherError (py "[Errno 20] Not a directory"))
    | None, KDir => Return (fs_entries fs p)
    end
  end.

(** [p.unlink()] *)
Definition fs_unlink (fs : filesystem) (p : Path) : outcome filesystem :=
  match fs_lookup fs p with
  | None => Raise (Exn FileNotFoundError (py "[Errno 2] No such file or directory"))
  | Some i =>
    match i_del i, i_kind i with
    | Some e, _ => Raise e
    | None, KDir => Raise (Exn OtherError (py "[Errno 21] Is a directory"))
    | None, KFile => Return (filter (λ qi, qi.1 ≠ p) fs)
    end
  end.

(** [shutil.rmtree(p)].  The removal is taken as atomic: a removal fault on
    [p] or below it is raised and nothing is removed (the host removes what
    it can before it raises; what is left then is not modelled).  A root is
    removed like any directory unless its inode carries a removal fault. *)
Definition fs_rmtree (fs : filesystem) (p : Path) : outcome filesystem :=
  match fs_lookup fs p with
  | None => Raise (Exn FileNotFoundError (py "[Errno 2] No such file or directory"))
  | Some i =>
    match i_kind i with
    | KFile => Raise (Exn OtherError (py "[Errno 20] Not a directory"))
    | KDir =>
      match omap (λ qi, if is_under p qi.1 then i_del qi.2 else None) fs with
      | e :: _ => Raise e
      | [] => Return (filter (λ qi, is_under p qi.1 = false) fs)
      end
    end
  end.

(** ** Tree nodes (textual.widgets.tree.TreeNode)

    [data_is_dir] is the attribute the source attaches to directory nodes
    after construction; [None] means the attribute is absent ([hasattr] is
    false).  [label] is the label as the program passes it to [add]: Textual
    parses that text as markup before it shows it, and the rendering is not
    part of this record. *)

Record TreeNode := MkNode {
  label : pystr;
  data : option Path;
  data_is_dir : option bool;
  allow_expand : bool;
  is_expanded : bool;
  children : list nat;
  parent : option nat
}.

Definition blank_node : TreeNode := MkNode [] None None true false [] None.

Global Instance TreeNode_inhabited : Inhabited TreeNode := populate blank_node.

Inductive tree_message := NodeExpanded (n : nat) | NodeCollapsed (n : nat).

(** Calls that leave the process: removals and launches. *)
Inductive syscall :=
| Unlink (p : Path)
| Rmtree (p : Path)
| Startfile (p : Path)
| Popen (argv : list pystr).

(** [notify(message, title=..., timeout=...)]; the timeout in tenths of a
    second. *)
Record notification := Notify {
  n_message : pystr;
  n_title : pystr;
  n_timeout : N
}.

(** ** Application state

    [nodes] is the object store: the identity of a node is its index, and a
    new node is appended.  [cursor_node] is the node under the cursor, kept
    by the framework.  [screens] is the stack of open confirmation dialogs,
    each with the path it displays.  [os_resolve] and [os_launch] are the
    answers of the operating system to [Path.resolve] and to a launch. *)

Record App := MkApp {
  fs : filesystem;
  cwd : Path;
  platform : pystr;
  os_resolve : Path → outcome Path;
  os_launch : syscall → option exn;
  nodes : list TreeNode;
  cursor_node : option nat;
  screens : list Path;
  messages : list tree_message;
  notifications : list notification;
  stdout : list pystr;
  syscalls : list syscall
}.

Definition with_fs (f : filesystem) (a : App) : App :=
  MkApp f (cwd a) (platform a) (os_resolve a) (os_launch a) (nodes a)
        (cursor_node a) (screens a) (messages a) (notifications a) (stdout a)
        (syscalls a).

Definition with_nodes (ns : list TreeNode) (a : App) : App :=
  MkApp (fs a) (cwd a) (platform a) (os_resolve a) (os_launch a) ns
        (cursor_node a) (screens a) (messages a) (notifications a) (stdout a)
        (syscalls a).

Definition with_cursor (c : option nat) (a : App) : App :=
  MkApp (fs a) (cwd a) (platform a) (os_resolve a) (os_launch a) (nodes a)
        c (screens a) (messages a) (notifications a) (stdout a) (syscalls a).

Definition with_screens (sc : list Path) (a : App) : App :=
  MkApp (fs a) (cwd a) (platform a) (os_resolve a) (os_launch a) (nodes a)
        (cursor_node a) sc (messages a) (notifications a) (stdout a)
        (syscalls a).

Definition with_messages (ms : list tree_message) (a : App) : App :=
  MkApp (fs a) (cwd a) (platform a) (os_resolve a) (os_launch a) (nodes a)
        (cursor_node a) (screens a) ms (notifications a) (stdout a)
        (syscalls a).

Definition with_notifications (ns : list notification) (a : App) : App :=
  MkApp (fs a) (cwd a) (platform a) (os_resolve a) (os_launch a) (nodes a)
        (cursor_node a) (screens a) (messages a) ns (stdout a) (syscalls a).

Definition with_stdout (o : list pystr) (a : App) : App :=
  MkApp (fs a) (cwd a) (platform a) (os_resolve a) (os_launch a) (nodes a)
        (cursor_node a) (screens a) (messages a) (notifications a) o
        (syscalls a).

Definition with_syscalls (sc : list syscall) (a : App) : App :=
  MkApp (fs a) (cwd a) (platform a) (os_resolve a) (os_launch a) (nodes a)
        (cursor_node a) (screens a) (messages a) (notifications a) (stdout a)
        sc.

(** ** The monad of handlers: state, and exceptions that keep the state
    reached when they are raised. *)

Definition M (A : Type) : Type := App → outcome A * App.

Global Instance M_ret : MRet M := λ A a s, (Return a, s).

Global Instance M_bind : MBind M := λ A B k m s,
  match m s with
  | (Return a, s') => k a s'
  | (Raise e, s') => (Raise e, s')
  end.

Definition raise {A} (e : exn) : M A := λ s, (Raise e, s).

(** [try: body except Exception as e: handler e] *)
Definition try_except {A} (body : M A) (handler : exn → M A) : M A := λ s,
  match body s with
  | (Return a, s') => (Return a, s')
  | (Raise e, s') => handler e s'
  end.

Definition gets {A} (f : App → A) : M A := λ s, (Return (f s), s).

Definition modify (f : App → App) : M unit := λ s, (Return (), f s).

(** A read of the filesystem. *)
Definition fs_read {A} (f : filesystem → outcome A) : M A := λ s, (f (fs s), s).

(** A removal: the call is logged, the filesystem replaced on success. *)
Definition fs_remove (c : syscall) (f : filesystem → outcome filesystem) : M unit := λ s,
  let s' := with_syscalls (syscalls s ++ [c]) s in
  match f (fs s) with
  | Return fs' => (Return (), with_fs fs' s')
  | Raise e => (Raise e, s')
  end.

Fixpoint for_each {A} (l : list A) (body : A → M unit) : M unit :=
  match l with
  | [] => mret ()
  | x :: l' => body x ;; for_each l' body
  end.

Fixpoint map_m {A B} (f : A → M B) (l : list A) : M (list B) :=
  match l with
  | [] => mret []
  | x :: l' => y ← f x; ys ← map_m f l'; mret (y :: ys)
  end.

(** *** pathlib and shutil on the state *)

Definition path_is_dir (p : Path) : M bool := fs_read (λ f, fs_is_dir f p).
Definition path_is_file (p : Path) : M bool := fs_read (λ f, fs_is_file f p).
Definition path_exists (p : Path) : M bool := fs_read (λ f, fs_exists f p).
Definition path_iterdir (p : Path) : M (list Path) := fs_read (λ f, fs_iterdir f p).
Definition path_unlink (p : Path) : M unit := fs_remove (Unlink p) (λ f, fs_unlink f p).
Definition shutil_rmtree (p : Path) : M unit := fs_remove (Rmtree p) (λ f, fs_rmtree f p).

(** *** The TreeNode interface *)

Definition add_children (ids : list nat) (n : TreeNode) : TreeNode :=
  MkNode (label n) (data n) (data_is_dir n) (allow_expand n) (is_expanded n)
         (children n ++ ids) (parent n).

Definition clear_children (n : TreeNode) : TreeNode :=
  MkNode (label n) (data n) (data_is_dir n) (allow_expand n) (is_expanded n)
         [] (parent n).

Definition with_dir_attr (b : bool) (n : TreeNode) : TreeNode :=
  MkNode (label n) (data n) (Some b) (allow_expand n) (is_expanded n)
         (children n) (parent n).

Definition with_expanded (b : bool) (n : TreeNode) : TreeNode :=
  MkNode (label n) (data n) (data_is_dir n) (allow_expand n) b
         (children n) (parent n).

Definition get_node (i : nat) : M TreeNode := gets (λ s, nodes s !!! i).

Definition update_node (i : nat) (f : TreeNode → TreeNode) : M unit :=
  modify (λ s, with_nodes (alter f i (nodes s)) s).

(** [node.remove_children()]: the children are detached from the node.  The
    store keeps the records of the detached objects as they were; Textual,
    which removes the whole subtree, also empties their children lists. *)
Definition remove_children (i : nat) : M unit := update_node i clear_children.

(** [node.add(label, data, allow_expand)]: a new collapsed node is created
    and appended to the children of [i]. *)
Definition node_add (i : nat) (lbl : pystr) (d : option Path) (allow : bool) : M nat := λ s,
  let c := length (nodes s) in
  let ns := nodes s ++ [MkNode lbl d None allow false [] (Some i)] in
  (Return c, with_nodes (alter (add_children [c]) i ns) s).

(** [node.data_is_dir = b] *)
Definition set_data_is_dir (i : nat) (b : bool) : M unit :=
  update_node i (with_dir_attr b).

Definition set_expanded (i : nat) (b : bool) : M unit :=
  update_node i (with_expanded b).

Definition post_message (m : tree_message) : M unit :=
  modify (λ s, with_messages (messages s ++ [m]) s).

(** [node.expand()] and [node.collapse()]: the flag is set and the tree
    posts the message that the handler of the event will receive. *)
Definition expand (i : nat) : M unit :=
  set_expanded i true ;; post_message (NodeExpanded i).

Definition collapse (i : nat) : M unit :=
  set_expanded i false ;; post_message (NodeCollapsed i).

Definition notify (msg title : pystr) (timeout : N) : M unit :=
  modify (λ s, with_notifications (notifications s ++ [Notify msg title timeout]) s).

(** [print(line)]: the line is written to the standard output; the write
    itself is taken to succeed. *)
Definition print (line : pystr) : M unit :=
  modify (λ s, with_stdout (stdout s ++ [line]) s).

(** [self.file_tree.root]: the first object of the store. *)
Definition tree_root : nat := 0%nat.

(** [hasattr(n, "data_is_dir") and n.data_is_dir and n.data] *)
Definition is_dir_node (n : TreeNode) : bool :=
  match data_is_dir n, data n with
  | Some true, Some _ => true
  | _, _ => false
  end.

(** [hasattr(n, "data_is_dir")] *)
Definition has_dir_attr (n : TreeNode) : bool :=
  bool_decide (data_is_dir n ≠ None).

(** ** [sorted(iterable, key=...)]

    The keys are computed first, one call per element in order, and the
    elements are then arranged by a stable sort that compares keys with [<]
    only.  A stable sort has one result, so the insertion sort below stands
    for the sort of the interpreter. *)

(** [<] on the tuples [(bool, str)] of the source: the first components
    are compared when they differ ([False < True]), the second otherwise. *)
Definition key_ltb (a b : bool * pystr) : bool :=
  if bool_decide (a.1 = b.1) then str_ltb a.2 b.2 else negb a.1 && b.1.

Fixpoint insert_by_key {K A} (ltb : K → K → bool) (x : K * A) (l : list (K * A)) : list (K * A) :=
  match l with
  | [] => [x]
  | y :: l' => if ltb y.1 x.1 then y :: insert_by_key ltb x l' else x :: y :: l'
  end.

Definition sort_keyed {K A} (ltb : K → K → bool) (l : list (K * A)) : list (K * A) :=
  foldr (insert_by_key ltb) [] l.

(** [a] may stand before [b]: the key of [b] is not below the key of [a]. *)
Definition key_le {K A} (ltb : K → K → bool) (a b : K * A) : Prop := ltb b.1 a.1 = false.

Definition sorted {K A} (ltb : K → K → bool) (key : A → M K) (l : list A) : M (list A) :=
  ks ← map_m (λ x, k ← key x; mret (k, x)) l;
  mret ((sort_keyed ltb ks).*2).

(** The view of a node: its children, as objects. *)
Definition child_nodes (s : App) (i : nat) : list TreeNode :=
  (λ c, nodes s !!! c) <$> children (nodes s !!! i).

Section Lemon.

Context {lower : StrLower}.

(** ** class Lemon *)

(** The key of the source: [lambda x: (not x.is_dir(), x.name.lower())] *)
Definition entry_key (x : Path) : M (bool * pystr) :=
  d ← path_is_dir x;
  mret (negb d, str_lower (name x)).

Definition is_permission_error (e : exn) : bool :=
  bool_decide (e_class e = PermissionError).

Definition is_file_not_found (e : exn) : bool :=
  bool_decide (e_class e = FileNotFoundError).

(** The body of the loop of [load_children] for one entry. *)
Definition add_entry (node : nat) (entry : Path) : M unit :=
  try_except
    (d ← path_is_dir entry;
     directory ← (if (d : bool) return M bool
                  then f ← path_is_file entry; mret (negb f)
                  else mret false);
     if (directory : bool) return M unit then
       child ← node_add node (py "📁 " ++ name entry) (Some entry) true;
       set_data_is_dir child true
     else
       node_add node (name entry) (Some entry) false ;; mret ())
    (λ e, if is_permission_error e then mret () else raise e).

Definition load_children (node : nat) (path : option Path) : M unit :=
  remove_children node ;;
  match path with
  | None => mret ()
  | Some p =>
    d ← path_is_dir p;
    if negb d then mret ()
    else
      try_except
        (listing ← path_iterdir p;
         entries ← sorted key_ltb entry_key listing;
         for_each entries (add_entry node))
        (λ e,
           if is_permission_error e then
             node_add node (py "[权限不足]") None false ;; mret ()
           else
             node_add node (py "[加载错误: " ++ take 20 (e_str e) ++ py "]") None false ;;
             mret ())
  end.

Definition get_root_paths : M (list Path) :=
  c ← gets cwd;
  let a := anchor c in
  if endswith a (py ":\") then
    fold_left
      (λ acc drive,
         roots ← acc;
         let p := MkPath ([drive] ++ py ":\") [] in
         e ← path_exists p;
         mret (if (e : bool) then roots ++ [p] else roots))
      (py "ABCDEFGHIJKLMNOPQRSTUVWXYZ") (mret [])
  else mret [MkPath a []].

(** [compose] followed by [on_mount], started on an application whose tree
    is not built yet: the tree root is created, then one node per root
    path. *)
Definition on_mount : M unit :=
  modify (with_nodes [MkNode (py "文件系统") None None true false [] None]) ;;
  roots ← get_root_paths;
  for_each roots
    (λ root,
       node ← node_add tree_root (py "📁 " ++ path_str root) (Some root) true;
       set_data_is_dir node true ;;
       load_children node (Some root)).

Definition on_tree_node_expanded (node : nat) : M unit :=
  n ← get_node node;
  if is_dir_node n then load_children node (data n) else mret ().

(** The body of the loop of [action_refresh] over the top-level nodes. *)
Definition refresh_root (root_node : nat) : M unit :=
  n ← get_node root_node;
  if bool_decide (data_is_dir n = Some true) then load_children root_node (data n)
  else mret ().

Definition action_refresh : M unit :=
  sel ← gets cursor_node;
  match sel with
  | Some selected_node =>
    n ← get_node selected_node;
    if is_dir_node n then
      load_children selected_node (data n) ;;
      expand selected_node ;;
      notify (py "已刷新目录") (py "刷新成功") 15
    else
      match parent n with
      | Some parent_node =>
        pn ← get_node parent_node;
        if has_dir_attr pn then
          load_children parent_node (data pn) ;;
          expand parent_node ;;
          notify (py "已刷新父目录") (py "刷新成功") 15
        else mret ()
      | None => mret ()
      end
  | None =>
    root ← get_node tree_root;
    for_each (children root) refresh_root ;;
    notify (py "已刷新文件系统") (py "刷新成功") 15
  end.

Definition on_tree_node_double_clicked (node : nat) : M unit :=
  n ← get_node node;
  if is_dir_node n then
    if is_expanded n then collapse node else expand node
  else mret ().

(** The launch of the platform: the call is logged and raises when the
    operating system refuses it. *)
Definition launch (c : syscall) : M unit := λ s,
  let s' := with_syscalls (syscalls s ++ [c]) s in
  match os_launch s c with
  | Some e => (Raise e, s')
  | None => (Return (), s')
  end.

Definition path_resolve (p : Path) : M Path := λ s, (os_resolve s p, s).

Definition open_file (file_path : Path) : M bool :=
  try_except
    (file_path ← path_resolve file_path;
     pf ← gets platform;
     (if bool_decide (pf = py "win32") then launch (Startfile file_path)
      else if bool_decide (pf = py "linux") then
        launch (Popen [py "xdg-open"; path_str file_path])
      else if bool_decide (pf = py "darwin") then
        launch (Popen [py "open"; path_str file_path])
      else mret ()) ;;
     mret true)
    (λ e, print (py "打开文件错误：" ++ e_str e) ;; mret false).

Definition action_open_selected : M unit :=
  sel ← gets cursor_node;
  match sel with
  | None => notify (py "未选中任何文件") (py "提示") 20
  | Some selected_node =>
    n ← get_node selected_node;
    match data n with
    | None => notify (py "请先选中一个文件") (py "提示") 20
    | Some p =>
      f ← path_is_file p;
      if (f : bool) then
        success ← open_file p;
        if (success : bool) then notify (py "已打开：" ++ name p) (py "成功") 20
        else notify (py "打开失败：" ++ name p) (py "错误") 30
      else notify (py "请先选中一个文件") (py "提示") 20
    end
  end.

(** [self.push_screen(DeleteConfirmScreen(path), self.handle_delete_confirm)]:
    the callback is always [handle_delete_confirm], so the screen is
    represented by the path it displays. *)
Definition push_screen (p : Path) : M unit :=
  modify (λ s, with_screens (p :: screens s) s).

Definition action_delete_selected : M unit :=
  sel ← gets cursor_node;
  match sel with
  | None => notify (py "未选中任何文件/目录") (py "提示") 20
  | Some selected_node =>
    n ← get_node selected_node;
    match data n with
    | None => notify (py "选中项无效或不存在") (py "提示") 20
    | Some p =>
      e ← path_exists p;
      if negb e then notify (py "选中项无效或不存在") (py "提示") 20
      else push_screen p
    end
  end.

(** The block of [handle_delete_confirm] that follows the removal: the
    parent of the selected node is reloaded and expanded. *)
Definition refresh_parent (selected_node : nat) : M unit :=
  sn ← get_node selected_node;
  match parent sn with
  | Some parent_node =>
    pn ← get_node parent_node;
    if has_dir_attr pn then
      load_children parent_node (data pn) ;;
      expand parent_node
    else mret ()
  | None => mret ()
  end.

(** The three [except] clauses of [handle_delete_confirm]. *)
Definition report_delete_error (e : exn) : M unit :=
  if is_permission_error e then
    notify (py "权限不足，无法删除") (py "错误") 30
  else if is_file_not_found e then
    notify (py "文件/目录不存在") (py "错误") 30
  else
    notify (py "删除失败：" ++ take 30 (e_str e)) (py "错误") 30 ;;
    print (py "删除错误详情：" ++ e_str e).

Definition handle_delete_confirm (confirmed : bool) : M unit :=
  if negb confirmed then notify (py "已取消删除") (py "提示") 15
  else
    sel ← gets cursor_node;
    match sel with
    | None => raise (Exn AttributeError (py "'NoneType' object has no attribute 'data'"))
    | Some selected_node =>
      n ← get_node selected_node;
      let path_to_delete := data n in
      try_except
        (match path_to_delete with
         | None => raise (Exn AttributeError (py "'NoneType' object has no attribute 'is_file'"))
         | Some p =>
           f ← path_is_file p;
           (if (f : bool) then path_unlink p
            else
              d ← path_is_dir p;
              if (d : bool) then shutil_rmtree p else mret ()) ;;
           refresh_parent selected_node ;;
           notify (py "已删除：" ++ name p) (py "删除成功") 20
         end)
        report_delete_error
    end.

(** [DeleteConfirmScreen.on_button_pressed]: the dialog is dismissed with
    [True] for the button "delete" and [False] otherwise; the dismissal
    closes the screen and passes the answer to the callback. *)
Definition on_button_pressed (button_id : pystr) : M unit :=
  modify (λ s, with_screens (tail (screens s)) s) ;;
  handle_delete_confirm (bool_decide (button_id = py "delete")).

(** ** What a load leaves in the tree

    The children a load of [p] gives to [node], computed from the
    filesystem alone.  The lemmas below show that [load_children] builds
    exactly these objects. *)

(** The new objects [cs] are appended to the store and become the last
    children of [node]. *)
Definition attach_nodes (node : nat) (cs ns : list TreeNode) : list TreeNode :=
  alter (add_children (seq (length ns) (length cs))) node (ns ++ cs).

Definition attach (node : nat) (cs : list TreeNode) (s : App) : App :=
  with_nodes (attach_nodes node cs (nodes s)) s.

Definition detach (node : nat) (s : App) : App :=
  with_nodes (alter clear_children node (nodes s)) s.

Definition dir_child (node : nat) (entry : Path) : TreeNode :=
  MkNode (py "📁 " ++ name entry) (Some entry) (Some true) true false [] (Some node).

Definition file_child (node : nat) (entry : Path) : TreeNode :=
  MkNode (name entry) (Some entry) None false false [] (Some node).

Definition placeholder (node : nat) (e : exn) : TreeNode :=
  MkNode (if is_permission_error e then py "[权限不足]"
          else py "[加载错误: " ++ take 20 (e_str e) ++ py "]")
         None None false false [] (Some node).

Fixpoint out_map {A B} (g : A → outcome B) (l : list A) : outcome (list B) :=
  match l with
  | [] => Return []
  | x :: l' =>
    match g x with
    | Raise e => Raise e
    | Return y =>
      match out_map g l' with
      | Raise e => Raise e
      | Return ys => Return (y :: ys)
      end
    end
  end.

(** The key of an entry, read off the filesystem. *)
Definition fs_entry_key (f : filesystem) (x : Path) : outcome ((bool * pystr) * Path) :=
  match fs_is_dir f x with
  | Return d => Return ((negb d, str_lower (name x)), x)
  | Raise e => Raise e
  end.

(** The key of the source for an entry whose type check returns. *)
Definition is_directory (f : filesystem) (x : Path) : bool :=
  match fs_is_dir f x with
  | Return true => true
  | _ => false
  end.

Definition path_key (f : filesystem) (x : Path) : bool * pystr :=
  (negb (is_directory f x), str_lower (name x)).

Definition child_of_key (node : nat) (kx : (bool * pystr) * Path) : TreeNode :=
  if kx.1.1 then file_child node kx.2 else dir_child node kx.2.

Definition loaded_children (f : filesystem) (node : nat) (p : Path) : list TreeNode :=
  match fs_iterdir f p with
  | Raise e => [placeholder node e]
  | Return listing =>
    match out_map (fs_entry_key f) listing with
    | Raise e => [placeholder node e]
    | Return ks => child_of_key node <$> sort_keyed key_ltb ks
    end
  end.

Definition load_view (f : filesystem) (node : nat) (path : option Path) : list TreeNode :=
  match path with
  | None => []
  | Some p =>
    match fs_is_dir f p with
    | Return true => loaded_children f node p
    | _ => []
    end
  end.

(** The state after [load_children t (data t)], after [t.expand()] and
    after a notification. *)
Definition reloaded (t : nat) (s : App) : App :=
  attach t (load_view (fs s) t (data (nodes s !!! t))) (detach t s).

Definition expanded (t : nat) (s : App) : App :=
  with_messages (messages s ++ [NodeExpanded t])
    (with_nodes (alter (with_expanded true) t (nodes s)) s).

Definition notified (n : notification) (s : App) : App :=
  with_notifications (notifications s ++ [n]) s.

(** The type check of a path returns. *)
Definition stat_returns (f : filesystem) (path : option Path) : Prop :=
  match path with
  | Some p => ∃ d, fs_is_dir f p = Return d
  | None => True
  end.

(** ** Events

    The key bindings of the application ([BINDINGS]), the events of the
    tree and of the dialog, and the cursor movements of the framework. *)

Inductive event :=
| Key (k : pystr)
| CursorMoved (c : option nat)
| TreeNodeExpanded (n : nat)
| TreeNodeDoubleClicked (n : nat)
| ButtonPressed (button_id : pystr).

Definition dispatch (e : event) : M unit :=
  match e with
  | Key k =>
    if bool_decide (k = py "f5") then action_refresh
    else if bool_decide (k = py "ctrl+o") then action_open_selected
    else if bool_decide (k = py "ctrl+d") then action_delete_selected
    else mret ()
  | CursorMoved c => modify (with_cursor c)
  | TreeNodeExpanded n => on_tree_node_expanded n
  | TreeNodeDoubleClicked n => on_tree_node_double_clicked n
  | ButtonPressed b => on_button_pressed b
  end.

(** A run: the events are handled one after the other, each to its end. *)
Definition run_events (es : list event) : M unit := for_each es dispatch.



(** ** Relations between the states of a run *)

(** What identifies a node: everything but its children and its expansion
    flag. *)
Definition identity (n : TreeNode) : pystr * option Path * option bool * bool * option nat :=
  (label n, data n, data_is_dir n, allow_expand n, parent n).

(** The store has only grown, and no object of it has changed identity. *)
Definition grows (s s' : App) : Prop :=
  length (nodes s) ≤ length (nodes s') ∧
  ∀ j, j < length (nodes s) → identity (nodes s' !!! j) = identity (nodes s !!! j).

Definition same_fs (s s' : App) : Prop := fs s' = fs s.

Definition same_syscalls (s s' : App) : Prop := syscalls s' = syscalls s.

Definition same_screens (s s' : App) : Prop := screens s' = screens s.

Definition same_cursor (s s' : App) : Prop := cursor_node s' = cursor_node s.


(** Every state a computation ends in, with whatever outcome, is related to
    the state it started from. *)
Definition preserves (R : App → App → Prop) {A} (m : M A) : Prop :=
  ∀ s, R s (m s).2.

(** An invariant, as a relation between the states of a run. *)
Definition keeps (I : App → Prop) (s s' : App) : Prop := I s → I s'.

(** The tree is well formed: no node lists a child twice; every listed child
    exists and points back to the node that lists it; and the directory
    attribute, where a node has it, is [True] and stands on a node with a
    path, so that the test [hasattr(node, "data_is_dir") and node.data_is_dir
    and node.data] of the handlers and the test of [hasattr] alone agree. *)
Definition tree_wf (s : App) : Prop :=
  ∀ j, j < length (nodes s) →
    NoDup (children (nodes s !!! j)) ∧
    Forall (λ c, c < length (nodes s) ∧ parent (nodes s !!! c) = Some j)
           (children (nodes s !!! j)) ∧
    has_dir_attr (nodes s !!! j) = is_dir_node (nodes s !!! j).

(** The body of the loop of [on_mount] for one root path. *)
Definition mount_root (root : Path) : M unit :=
  node ← node_add tree_root (py "📁 " ++ path_str root) (Some root) true;
  set_data_is_dir node true ;;
  load_children node (Some root).

(** The calls [open_file] makes for a resolved path, by platform. *)
Definition opener_calls (pf : pystr) (resolved : Path) : list syscall :=
  if bool_decide (pf = py "win32") then [Startfile resolved]
  else if bool_decide (pf = py "linux") then [Popen [py "xdg-open"; path_str resolved]]
  else if bool_decide (pf = py "darwin") then [Popen [py "open"; path_str resolved]]
  else [].

(** The notification and the output of the [except] clauses of
    [handle_delete_confirm] for an exception. *)
Definition delete_error_notification (e : exn) : notification :=
  if is_permission_error e then Notify (py "权限不足，无法删除") (py "错误") 30
  else if is_file_not_found e then Notify (py "文件/目录不存在") (py "错误") 30
  else Notify (py "删除失败：" ++ take 30 (e_str e)) (py "错误") 30.

Definition delete_error_output (e : exn) : list pystr :=
  if is_permission_error e then []
  else if is_file_not_found e then []
  else [py "删除错误详情：" ++ e_str e].

(** [p.exists()] returns [True]. *)
Definition path_present (f : filesystem) (p : Path) : bool :=
  match fs_exists f p with
  | Return true => true
  | _ => false
  end.

(** The result of [get_root_paths], read off the working directory and the
    filesystem. *)
Definition fs_root_paths (c : Path) (f : filesystem) : outcome (list Path) :=
  if endswith (anchor c) (py ":\") then
    fold_left
      (λ acc drive,
         match acc with
         | Raise e => Raise e
         | Return roots =>
           let p := MkPath ([drive] ++ py ":\") [] in
           match fs_exists f p with
           | Raise e => Raise e
           | Return e => Return (if (e : bool) then roots ++ [p] else roots)
           end
         end)
      (py "ABCDEFGHIJKLMNOPQRSTUVWXYZ") (Return [])
  else Return [MkPath (anchor c) []].

(** The object [t] is the top-level node of [root] as [on_mount] leaves
    it: a collapsed directory node under the tree root, with the children of
    one load. *)
Definition mounted (s : App) (t : nat) (root : Path) : Prop :=
  identity (nodes s !!! t)
    = (py "📁 " ++ path_str root, Some root, Some true, true, Some tree_root) ∧
  is_expanded (nodes s !!! t) = false ∧
  child_nodes s t = load_view (fs s) t (Some root).

(** The drive roots [get_root_paths] probes, in the order of the loop. *)
Definition drive_paths : list Path :=
  (λ drive, MkPath ([drive] ++ py ":\") []) <$> py "ABCDEFGHIJKLMNOPQRSTUVWXYZ".

End Lemon.

(** ** Concrete scenarios

    A POSIX host, case tables restricted to ASCII, and the states the
    handlers are run on below. *)

Global Instance ascii_StrLower : StrLower := ascii_lower.

Definition posix (l : list string) : Path := MkPath (py "/") (py <$> l).

Definition plain (k : fkind) : inode := Inode k None None None.

(** An application before [on_mount], on a host where every path resolves
    to itself and every launch succeeds. *)
Definition boot (f : filesystem) : App :=
  MkApp f (posix []) (py "linux") (λ p, Return p) (λ _, None)
        [] None [] [] [] [] [].

Definition run {A} (m : M A) (s : App) : App := (m s).2.

(** [/home] with the four entries of the ordering example, listed by the
    host in the order bravo, Alpha.txt, charlie, alpha.txt. *)
Definition fs_example : filesystem :=
  [ (posix [], plain KDir);
    (posix ["home"%string], plain KDir);
    (posix ["home"; "bravo"]%string, plain KDir);
    (posix ["home"; "Alpha.txt"]%string, plain KFile);
    (posix ["home"; "charlie"]%string, plain KDir);
    (posix ["home"; "alpha.txt"]%string, plain KFile) ].

(** The same directory on a host that lists alpha.txt before Alpha.txt. *)
Definition fs_example_swapped : filesystem :=
  [ (posix [], plain KDir);
    (posix ["home"%string], plain KDir);
    (posix ["home"; "alpha.txt"]%string, plain KFile);
    (posix ["home"; "bravo"]%string, plain KDir);
    (posix ["home"; "Alpha.txt"]%string, plain KFile);
    (posix ["home"; "charlie"]%string, plain KDir) ].

(** The application after start-up and after the node of [/home] (object 2)
    was expanded by the user. *)
Definition started (f : filesystem) : App :=
  run (on_mount ;; set_expanded 2 true ;; on_tree_node_expanded 2) (boot f).

(** [/secret] cannot be listed; listing [/mnt] fails with an I/O error. *)
Definition fs_faulty : filesystem :=
  [ (posix [], plain KDir);
    (posix ["secret"%string],
     Inode KDir None (Some (Exn PermissionError (py "[Errno 13] Permission denied: '/secret'"))) None);
    (posix ["mnt"%string],
     Inode KDir None (Some (Exn OtherError (py "[Errno 5] Input/output error: '/mnt'"))) None) ].

(** [fs_example] after Alpha.txt was removed from [/home]. *)
Definition fs_example_deleted : filesystem :=
  [ (posix [], plain KDir);
    (posix ["home"%string], plain KDir);
    (posix ["home"; "bravo"]%string, plain KDir);
    (posix ["home"; "charlie"]%string, plain KDir);
    (posix ["home"; "alpha.txt"]%string, plain KFile) ].

(** A Windows host with the drives C: and E:, started in [C:\Users]. *)
Definition windows (drive : string) (l : list string) : Path :=
  MkPath (py drive ++ py ":\") (py <$> l).

Definition fs_windows : filesystem :=
  [ (windows "C" [], plain KDir);
    (windows "C" ["Users"%string], plain KDir);
    (windows "C" ["boot.ini"%string], plain KFile);
    (windows "E" [], plain KDir);
    (windows "E" ["data"%string], plain KDir) ].

Definition boot_windows : App :=
  MkApp fs_windows (windows "C" ["Users"%string]) (py "win32") (λ p, Return p)
        (λ _, None) [] None [] [] [] [] [].

(** [/home] with one file, which the host refuses to remove. *)
Definition fs_locked : filesystem :=
  [ (posix [], plain KDir);
    (posix ["home"%string], plain KDir);
    (posix ["home"; "locked.txt"]%string,
     Inode KFile None None
           (Some (Exn PermissionError
                      (py "[Errno 13] Permission denied: '/home/locked.txt'")))) ].

(** [/home] with an entry whose type cannot be read, listed second. *)
Definition fs_stale : filesystem :=
  [ (posix [], plain KDir);
    (posix ["home"%string], plain KDir);
    (posix ["home"; "bravo"]%string, plain KDir);
    (posix ["home"; "stale"]%string,
     Inode KFile (Some (Exn OtherError (py "[Errno 116] Stale file handle: '/home/stale'")))
           None None);
    (posix ["home"; "alpha.txt"]%string, plain KFile) ].

(** [fs_example] on a host where the type of [/home] cannot be read. *)
Definition fs_unreadable : filesystem :=
  [ (posix [], plain KDir);
    (posix ["home"%string],
     Inode KDir (Some (Exn PermissionError (py "[Errno 13] Permission denied: '/home'")))
           None None);
    (posix ["home"; "bravo"]%string, plain KDir) ].

(** [fs_example] on a host where the type of [/home] cannot be read, while
    the files in it can be removed. *)
Definition fs_home_denied : filesystem :=
  [ (posix [], plain KDir);
    (posix ["home"%string],
     Inode KDir (Some (Exn PermissionError (py "[Errno 13] Permission denied: '/home'")))
           None None);
    (posix ["home"; "bravo"]%string, plain KDir);
    (posix ["home"; "Alpha.txt"]%string, plain KFile);
    (posix ["home"; "charlie"]%string, plain KDir);
    (posix ["home"; "alpha.txt"]%string, plain KFile) ].

(** [fs_example] after the directory bravo was removed from [/home]. *)
Definition fs_example_pruned : filesystem :=
  [ (posix [], plain KDir);
    (posix ["home"%string], plain KDir);
    (posix ["home"; "Alpha.txt"]%string, plain KFile);
    (posix ["home"; "charlie"]%string, plain KDir);
    (posix ["home"; "alpha.txt"]%string, plain KFile) ].

(** A host on which no launch succeeds. *)
Definition no_opener (s : App) : App :=
  MkApp (fs s) (cwd s) (platform s) (os_resolve s)
        (λ _, Some (Exn FileNotFoundError (py "[Errno 2] No such file or directory: 'xdg-open'")))
        (nodes s) (cursor_node s) (screens s) (messages s) (notifications s)
        (stdout s) (syscalls s).

(** * Properties *)

(** ** The order on keys *)

Lemma str_ltb_irrefl a : str_ltb a a = false.
Proof.
  induction a as [|x a IH]; simpl; [done|].
  by rewrite N.eqb_refl.
Qed.

Lemma str_ltb_asym a b : str_ltb a b = true → str_ltb b a = false.
Proof.
  revert b. induction a as [|x a IH]; intros [|y b]; simpl; try done.
  destruct (N.eqb_spec x y) as [->|Hne].
  - rewrite N.eqb_refl. apply IH.
  - intros Hlt%N.ltb_lt.
    destruct (N.eqb_spec y x) as [->|_]; [done|].
    apply N.ltb_ge. lia.
Qed.

Lemma str_leb_trans a b c :
  str_ltb b a = false → str_ltb c b = false → str_ltb c a = false.
Proof.
  revert b c. induction a as [|x a IH]; intros [|y b] [|z c]; simpl; try done.
  destruct (N.eqb_spec y x) as [->|Hyx].
  - destruct (N.eqb_spec z x) as [->|Hzx]; [apply IH|done].
  - intros Hxy%N.ltb_ge.
    destruct (N.eqb_spec z y) as [->|Hzy].
    + intros _. destruct (N.eqb_spec y x); [done|]. apply N.ltb_ge. lia.
    + intros Hyz%N.ltb_ge.
      destruct (N.eqb_spec z x) as [->|Hzx]; [lia|]. apply N.ltb_ge. lia.
Qed.

Lemma key_ltb_irrefl k : key_ltb k k = false.
Proof.
  unfold key_ltb. rewrite bool_decide_eq_true_2 by done. apply str_ltb_irrefl.
Qed.

Lemma key_ltb_asym a b : key_ltb a b = true → key_ltb b a = false.
Proof.
  destruct a as [[] x], b as [[] y]; unfold key_ltb; simpl; try done;
    apply str_ltb_asym.
Qed.

Lemma key_leb_trans a b c :
  key_ltb b a = false → key_ltb c b = false → key_ltb c a = false.
Proof.
  destruct a as [[] x], b as [[] y], c as [[] z]; unfold key_ltb; simpl;
    try done; apply str_leb_trans.
Qed.

(** ** The stable sort *)

Section Sort.
Context {K A : Type} (ltb : K → K → bool).
Hypothesis ltb_irrefl : ∀ k, ltb k k = false.
Hypothesis ltb_asym : ∀ a b, ltb a b = true → ltb b a = false.
Hypothesis leb_trans : ∀ a b c, ltb b a = false → ltb c b = false → ltb c a = false.

Lemma insert_by_key_perm x (l : list (K * A)) : insert_by_key ltb x l ≡ₚ x :: l.
Proof.
  induction l as [|y l IH]; simpl; [done|].
  destruct (ltb y.1 x.1); [|done].
  rewrite IH. apply Permutation_swap.
Qed.

Lemma sort_keyed_perm (l : list (K * A)) : sort_keyed ltb l ≡ₚ l.
Proof.
  induction l as [|x l IH]; simpl; [done|].
  rewrite insert_by_key_perm. by rewrite IH.
Qed.

Lemma insert_by_key_sorted x (l : list (K * A)) :
  StronglySorted (key_le ltb) l → StronglySorted (key_le ltb) (insert_by_key ltb x l).
Proof.
  induction 1 as [|y l Hs IH Hall]; simpl.
  - repeat constructor.
  - destruct (ltb y.1 x.1) eqn:Hyx.
    + constructor; [done|].
      rewrite insert_by_key_perm. constructor; [|done].
      by apply ltb_asym.
    + constructor; [by constructor|].
      constructor; [done|].
      eapply Forall_impl; [exact Hall|].
      intros z Hz. unfold key_le in *. by eapply leb_trans.
Qed.

Lemma sort_keyed_sorted (l : list (K * A)) : StronglySorted (key_le ltb) (sort_keyed ltb l).
Proof.
  induction l as [|x l IH]; simpl; [constructor|].
  by apply insert_by_key_sorted.
Qed.

Context `{EqDecision K}.

Lemma insert_by_key_filter k x (l : list (K * A)) :
  filter (λ y, y.1 = k) (insert_by_key ltb x l) = filter (λ y, y.1 = k) (x :: l).
Proof.
  induction l as [|y l IH]; simpl; [done|].
  destruct (ltb y.1 x.1) eqn:Hyx; [|done].
  rewrite (filter_cons _ y), IH, !(filter_cons _ x), !(filter_cons _ y).
  destruct (decide (x.1 = k)) as [Hx|]; [|done].
  destruct (decide (y.1 = k)) as [Hy|]; [|done].
  rewrite Hx, Hy, ltb_irrefl in Hyx. done.
Qed.

(** Stability: the elements of one key keep the order of the input. *)
Lemma sort_keyed_stable k (l : list (K * A)) :
  filter (λ y, y.1 = k) (sort_keyed ltb l) = filter (λ y, y.1 = k) l.
Proof.
  induction l as [|x l IH]; simpl; [done|].
  rewrite insert_by_key_filter, !(filter_cons _ x), IH. done.
Qed.
End Sort.

(** ** The object store *)

Lemma with_nodes_id s : with_nodes (nodes s) s = s.
Proof. by destruct s. Qed.

Lemma add_children_nil n : add_children [] n = n.
Proof. destruct n. unfold add_children. simpl. by rewrite app_nil_r. Qed.

Lemma add_children_app ids1 ids2 n :
  add_children ids2 (add_children ids1 n) = add_children (ids1 ++ ids2) n.
Proof. unfold add_children. simpl. by rewrite app_assoc. Qed.

Lemma attach_nodes_nil node ns : attach_nodes node [] ns = ns.
Proof.
  unfold attach_nodes. rewrite app_nil_r. simpl.
  apply list_alter_id, add_children_nil.
Qed.

Lemma attach_nil node s : attach node [] s = s.
Proof. unfold attach. rewrite attach_nodes_nil. apply with_nodes_id. Qed.

Lemma length_attach_nodes node cs ns :
  length (attach_nodes node cs ns) = length ns + length cs.
Proof. unfold attach_nodes. by rewrite length_alter, length_app. Qed.

Lemma attach_nodes_app node cs1 cs2 ns :
  node < length ns →
  attach_nodes node cs2 (attach_nodes node cs1 ns) = attach_nodes node (cs1 ++ cs2) ns.
Proof.
  intros Hlt. unfold attach_nodes at 1.
  rewrite length_attach_nodes. unfold attach_nodes.
  rewrite <- alter_app_l by (rewrite length_app; lia).
  rewrite list_alter_alter_eq, <- app_assoc.
  apply list_alter_ext; [|done].
  intros n _. simpl. rewrite add_children_app, length_app, seq_app. done.
Qed.

Lemma attach_attach node cs1 cs2 s :
  node < length (nodes s) →
  attach node cs2 (attach node cs1 s) = attach node (cs1 ++ cs2) s.
Proof.
  intros Hlt. unfold attach. destruct s; simpl in *.
  unfold with_nodes; simpl. by rewrite attach_nodes_app.
Qed.

Lemma fs_detach node s : fs (detach node s) = fs s.
Proof. done. Qed.

Lemma length_nodes_detach node s : length (nodes (detach node s)) = length (nodes s).
Proof. simpl. apply length_alter. Qed.

Lemma length_nodes_attach node cs s :
  length (nodes (attach node cs s)) = length (nodes s) + length cs.
Proof. simpl. apply length_attach_nodes. Qed.

(** The objects below the old end of the store, other than [node], are
    untouched by an attachment; [node] only gains children. *)
Lemma attach_nodes_lookup_ne node cs ns j :
  j < length ns → j ≠ node → attach_nodes node cs ns !!! j = ns !!! j.
Proof.
  intros Hj Hne. unfold attach_nodes.
  rewrite list_lookup_total_alter_ne by done.
  by apply lookup_total_app_l.
Qed.

Lemma attach_nodes_lookup_eq node cs ns :
  node < length ns →
  attach_nodes node cs ns !!! node = add_children (seq (length ns) (length cs)) (ns !!! node).
Proof.
  intros Hlt. unfold attach_nodes.
  rewrite list_lookup_total_alter_eq by (rewrite length_app; lia).
  by rewrite lookup_total_app_l.
Qed.

Lemma attach_nodes_lookup_new node cs ns k :
  node < length ns → k < length cs →
  attach_nodes node cs ns !!! (length ns + k) = cs !!! k.
Proof.
  intros Hlt Hk. unfold attach_nodes.
  rewrite list_lookup_total_alter_ne by lia.
  rewrite lookup_total_app_r by lia. f_equal. lia.
Qed.

Lemma fmap_lookup_total_seq (cs : list TreeNode) (l : list TreeNode) b :
  (∀ k, k < length cs → l !!! (b + k) = cs !!! k) →
  (λ c, l !!! c) <$> seq b (length cs) = cs.
Proof.
  intros H. apply list_eq. intros i.
  rewrite list_lookup_fmap.
  destruct (decide (i < length cs)) as [Hi|Hi].
  - rewrite lookup_seq_lt by done. simpl. rewrite H by done.
    symmetry. by apply list_lookup_lookup_total_lt.
  - rewrite lookup_seq_ge by lia. simpl. symmetry. apply lookup_ge_None. lia.
Qed.

(** After the old children are detached and [cs] attached, the children of
    [node] are exactly the objects [cs]. *)
Lemma child_nodes_attach_detach node cs s :
  node < length (nodes s) →
  child_nodes (attach node cs (detach node s)) node = cs.
Proof.
  intros Hlt. unfold child_nodes. simpl.
  assert (Hlen : length (alter clear_children node (nodes s)) = length (nodes s))
    by apply length_alter.
  rewrite attach_nodes_lookup_eq by lia.
  rewrite list_lookup_total_alter_eq by done. simpl.
  apply fmap_lookup_total_seq. intros k Hk.
  by apply attach_nodes_lookup_new; [lia|].
Qed.

(** ** Evaluation of the loader *)

Section Loader.
Context {lower : StrLower}.

Ltac munfold :=
  unfold path_is_dir, path_is_file, path_exists, path_iterdir;
  unfold mbind, M_bind, mret, M_ret, try_except, gets, modify, raise, fs_read.

Lemma fs_is_dir_is_file f x :
  fs_is_dir f x = Return true → fs_is_file f x = Return false.
Proof.
  unfold fs_is_dir, fs_is_file. destruct (fs_stat f x) as [k|e]; [|done].
  intros [= Hk%bool_decide_eq_true]. subst k. done.
Qed.

Lemma bind_eval {A B} (m : M A) (k : A → M B) s :
  (m ≫= k) s =
    match m s with
    | (Return a, s') => k a s'
    | (Raise e, s') => (Raise e, s')
    end.
Proof. done. Qed.

(** A traversal whose steps only read the filesystem. *)
Lemma map_m_read {A B} (f : A → M B) (g : filesystem → A → outcome B) :
  (∀ x s, f x s = (g (fs s) x, s)) →
  ∀ l s, map_m f l s = (out_map (g (fs s)) l, s).
Proof.
  intros Hf. induction l as [|x l IH]; intros s; [done|].
  change (map_m f (x :: l)) with (y ← f x; ys ← map_m f l; mret (y :: ys)).
  rewrite bind_eval, Hf. simpl.
  destruct (g (fs s) x) as [y|e]; [|done].
  rewrite bind_eval, IH. by destruct (out_map _ l).
Qed.

Lemma entry_key_read x s :
  (k ← entry_key x; mret (k, x)) s = (fs_entry_key (fs s) x, s).
Proof.
  unfold entry_key, fs_entry_key. rewrite !bind_eval.
  unfold path_is_dir, fs_read. by destruct (fs_is_dir (fs s) x).
Qed.

Lemma map_m_entry_key l s :
  map_m (λ x, k ← entry_key x; mret (k, x)) l s = (out_map (fs_entry_key (fs s)) l, s).
Proof. apply (map_m_read _ fs_entry_key). apply entry_key_read. Qed.

Lemma sorted_entry_key l s :
  sorted key_ltb entry_key l s =
    (match out_map (fs_entry_key (fs s)) l with
     | Return ks => Return (sort_keyed key_ltb ks).*2
     | Raise e => Raise e
     end, s).
Proof.
  unfold sorted. unfold mbind at 1, M_bind at 1.
  rewrite map_m_entry_key. by destruct (out_map _ l).
Qed.

Lemma out_map_entry_key_Forall f l ks :
  out_map (fs_entry_key f) l = Return ks →
  Forall (λ kx, fs_is_dir f kx.2 = Return (negb kx.1.1) ∧
                kx.1 = (kx.1.1, str_lower (name kx.2))) ks ∧ ks.*2 = l.
Proof.
  revert ks. induction l as [|x l IH]; simpl; intros ks.
  - intros [= <-]. by split.
  - unfold fs_entry_key at 1.
    destruct (fs_is_dir f x) as [d|e] eqn:Hd; [|done].
    destruct (out_map _ l) as [ys|e]; [|done].
    intros [= <-]. destruct (IH ys eq_refl) as [HF Hl].
    split; [|by simpl; f_equal].
    constructor; [|done]. simpl. by rewrite negb_involutive.
Qed.

Lemma add_entry_eval node x d s :
  node < length (nodes s) →
  fs_is_dir (fs s) x = Return d →
  add_entry node x s =
    (Return (), attach node [if d then dir_child node x else file_child node x] s).
Proof.
  intros Hlt Hd. unfold add_entry. munfold. rewrite Hd.
  destruct d.
  - rewrite (fs_is_dir_is_file _ _ Hd). simpl.
    unfold set_data_is_dir, update_node, modify, attach. simpl.
    f_equal. destruct s; unfold with_nodes; simpl in *. f_equal.
    unfold attach_nodes. simpl.
    rewrite list_alter_alter_ne by lia. f_equal.
    replace (length nodes0) with (length nodes0 + 0) at 1 by lia.
    by rewrite alter_app_r.
  - simpl. done.
Qed.

Lemma for_each_add_entry node ks s :
  node < length (nodes s) →
  Forall (λ kx, fs_is_dir (fs s) kx.2 = Return (negb kx.1.1)) ks →
  for_each (ks.*2) (add_entry node) s =
    (Return (), attach node (child_of_key node <$> ks) s).
Proof.
  intros Hlt. revert s Hlt.
  induction ks as [|kx ks IH]; intros s Hlt HF; simpl.
  - by rewrite attach_nil.
  - inversion_clear HF as [|?? Hd HF'].
    unfold mbind, M_bind. rewrite (add_entry_eval _ _ _ _ Hlt Hd).
    rewrite IH; [|rewrite length_nodes_attach; lia|done].
    rewrite attach_attach by done. f_equal. f_equal. simpl. f_equal.
    unfold child_of_key. by destruct (kx.1.1).
Qed.

Lemma remove_children_eval node s : remove_children node s = (Return (), detach node s).
Proof. done. Qed.

(** The loader, in one step: the old children are detached; a type check
    that raises lets the exception escape; a path that is not a directory
    leaves the node without children; otherwise the objects of
    [loaded_children] are attached. *)
Lemma load_children_eval node p s :
  node < length (nodes s) →
  load_children node (Some p) s =
    match fs_is_dir (fs s) p with
    | Raise e => (Raise e, detach node s)
    | Return false => (Return (), detach node s)
    | Return true => (Return (), attach node (loaded_children (fs s) node p) (detach node s))
    end.
Proof.
  intros Hlt. unfold load_children.
  rewrite bind_eval, remove_children_eval.
  rewrite bind_eval. unfold path_is_dir at 1, fs_read at 1. rewrite fs_detach.
  destruct (fs_is_dir (fs s) p) as [[]|e]; [|done|done].
  cbn [negb]. unfold try_except, loaded_children.
  rewrite bind_eval. unfold path_iterdir, fs_read. rewrite fs_detach.
  destruct (fs_iterdir (fs s) p) as [listing|e].
  - rewrite bind_eval, sorted_entry_key, fs_detach.
    destruct (out_map _ listing) as [ks|e] eqn:Hks.
    + apply out_map_entry_key_Forall in Hks as [HF _].
      rewrite for_each_add_entry; [done|by rewrite length_nodes_detach|].
      rewrite fs_detach.
      eapply Forall_impl.
      * eapply Permutation_Forall; [symmetry; apply sort_keyed_perm|exact HF].
      * by intros kx [? _].
    + unfold placeholder. by destruct (is_permission_error e).
  - unfold placeholder. by destruct (is_permission_error e).
Qed.

(** The state a load ends in, whatever its outcome. *)
Lemma load_children_state node path s :
  node < length (nodes s) →
  (load_children node path s).2 = attach node (load_view (fs s) node path) (detach node s).
Proof.
  intros Hlt. destruct path as [p|]; simpl.
  - rewrite load_children_eval by done.
    destruct (fs_is_dir (fs s) p) as [[]|e]; simpl; by rewrite ?attach_nil.
  - by rewrite attach_nil.
Qed.

Lemma load_children_outcome node path s :
  node < length (nodes s) →
  (load_children node path s).1 =
    match path with
    | None => Return ()
    | Some p => match fs_is_dir (fs s) p with Return _ => Return () | Raise e => Raise e end
    end.
Proof.
  intros Hlt. destruct path as [p|]; [|done].
  rewrite load_children_eval by done.
  by destruct (fs_is_dir (fs s) p) as [[]|e].
Qed.

End Loader.

(** ** The loader: order, idempotence, listing errors *)

Section LoaderProperties.
Context {lower : StrLower}.

Lemma out_map_entry_key_total f listing :
  Forall (λ x, ∃ d, fs_is_dir f x = Return d) listing →
  out_map (fs_entry_key f) listing = Return ((λ x, (path_key f x, x)) <$> listing).
Proof.
  induction 1 as [|x l [d Hd] _ IH]; simpl; [done|].
  rewrite IH. unfold fs_entry_key, path_key, is_directory. rewrite Hd.
  by destruct d.
Qed.

Lemma decorated_sorted {K A} (ltb : K → K → bool) (key : A → K) (l : list (K * A)) :
  Forall (λ kx, kx.1 = key kx.2) l →
  StronglySorted (key_le ltb) l →
  StronglySorted (λ x y, ltb (key y) (key x) = false) (l.*2).
Proof.
  intros HF Hs. induction Hs as [|kx l Hs IH Hall]; simpl; [constructor|].
  inversion_clear HF as [|?? Hkx HF'].
  constructor; [by apply IH|].
  apply Forall_fmap. rewrite Forall_forall in Hall, HF'. apply Forall_forall.
  intros ky Hin. simpl. rewrite <- Hkx, <- (HF' ky Hin). by apply Hall.
Qed.

Lemma decorated_filter {K A} `{EqDecision K} (key : A → K) k (l : list (K * A)) :
  Forall (λ kx, kx.1 = key kx.2) l →
  (filter (λ kx, kx.1 = k) l).*2 = filter (λ x, key x = k) (l.*2).
Proof.
  induction 1 as [|kx l Hkx _ IH]; [done|].
  rewrite fmap_cons, !filter_cons, <- IH, <- Hkx.
  by destruct (decide (kx.1 = k)).
Qed.

Lemma StronglySorted_lookup_lt {A} (R : relation A) (l : list A) i j x y :
  StronglySorted R l → i < j → l !! i = Some x → l !! j = Some y → R x y.
Proof.
  intros Hs. revert i j. induction Hs as [|z l Hs IH Hall]; intros i j Hij Hi Hj.
  - done.
  - destruct j as [|j]; [lia|]. destruct i as [|i]; simpl in *.
    + injection Hi as ->. rewrite Forall_lookup in Hall. by eapply Hall.
    + eapply IH; [|done..]. lia.
Qed.

Lemma child_of_key_decorated f node x :
  child_of_key node (path_key f x, x) =
    if is_directory f x then dir_child node x else file_child node x.
Proof. unfold child_of_key, path_key. simpl. by destruct (is_directory f x). Qed.

(** A load of a directory whose listing and type checks return leaves one
    child per listed entry, arranged by the key (not is_dir, lowered name);
    entries of equal key keep the order in which the host listed them. *)
Lemma load_children_sorted_entries (s : App) (node : nat) (p : Path) (listing : list Path) :
  node < length (nodes s) →
  fs_is_dir (fs s) p = Return true →
  fs_iterdir (fs s) p = Return listing →
  Forall (λ x, ∃ d, fs_is_dir (fs s) x = Return d) listing →
  let r := load_children node (Some p) s in
  let cs := child_nodes r.2 node in
  ∃ entries : list Path,
    r.1 = Return () ∧
    cs = (λ x, if is_directory (fs s) x then dir_child node x else file_child node x)
           <$> entries ∧
    entries ≡ₚ listing ∧
    StronglySorted
      (λ x y, key_ltb (path_key (fs s) y) (path_key (fs s) x) = false) entries ∧
    (∀ k, filter (λ x, path_key (fs s) x = k) entries
          = filter (λ x, path_key (fs s) x = k) listing) ∧
    (∀ i j ci cj, i < j → cs !! i = Some ci → cs !! j = Some cj →
       data_is_dir cj = Some true → data_is_dir ci = Some true).
Proof.
  intros Hlt Hdir Hlist Hstat r cs.
  set (dec := λ x : Path, (path_key (fs s) x, x)).
  set (sorted_ks := sort_keyed key_ltb (dec <$> listing)).
  assert (Hdec : Forall (λ kx, kx.1 = path_key (fs s) kx.2) sorted_ks).
  { eapply Permutation_Forall; [symmetry; apply sort_keyed_perm|].
    apply Forall_fmap. by apply Forall_true. }
  assert (Hcs : cs = child_of_key node <$> sorted_ks).
  { subst cs r. rewrite load_children_state by done.
    rewrite child_nodes_attach_detach by done.
    simpl. rewrite Hdir. unfold loaded_children. rewrite Hlist.
    by rewrite out_map_entry_key_total. }
  assert (Hsorted : StronglySorted
            (λ x y, key_ltb (path_key (fs s) y) (path_key (fs s) x) = false)
            (sorted_ks.*2)).
  { apply decorated_sorted; [done|].
    apply sort_keyed_sorted; [apply key_ltb_asym|apply key_leb_trans]. }
  exists (sorted_ks.*2). split_and!.
  - subst r. rewrite load_children_outcome by done. by rewrite Hdir.
  - rewrite Hcs, <- list_fmap_compose. apply Forall_fmap_ext_1.
    eapply Forall_impl; [exact Hdec|]. intros [k x] Hk. simpl in *. subst k.
    apply child_of_key_decorated.
  - subst sorted_ks. rewrite sort_keyed_perm, <- list_fmap_compose.
    by rewrite list_fmap_id.
  - done.
  - intros k. rewrite <- (decorated_filter (path_key (fs s)) k sorted_ks) by done.
    subst sorted_ks. rewrite sort_keyed_stable by apply key_ltb_irrefl.
    rewrite (decorated_filter (path_key (fs s)))
      by (apply Forall_fmap; by apply Forall_true).
    by rewrite <- list_fmap_compose, list_fmap_id.
  - intros i j ci cj Hij Hi Hj Hcj.
    rewrite Hcs in Hi, Hj.
    apply list_lookup_fmap_Some in Hi as (kx & -> & Hi).
    apply list_lookup_fmap_Some in Hj as (ky & -> & Hj).
    pose proof (Forall_lookup_1 _ _ _ _ Hdec Hi) as Hkx.
    pose proof (Forall_lookup_1 _ _ _ _ Hdec Hj) as Hky.
    assert (Hi' : sorted_ks.*2 !! i = Some kx.2) by (by rewrite list_lookup_fmap, Hi).
    assert (Hj' : sorted_ks.*2 !! j = Some ky.2) by (by rewrite list_lookup_fmap, Hj).
    pose proof (StronglySorted_lookup_lt _ _ i j _ _ Hsorted Hij Hi' Hj') as Hle.
    simpl in Hle. rewrite <- Hkx, <- Hky in Hle.
    revert Hcj Hle. unfold child_of_key, key_ltb.
    destruct kx as [[[] nx] x], ky as [[[] ny] y]; simpl; try done.
Qed.

(** The children a load leaves, whatever its course: no file node stands
    before a directory node, and among the nodes of one kind the lowered
    names never decrease. *)
Lemma load_children_ordered (s : App) (node : nat) (path : option Path) :
  node < length (nodes s) →
  let cs := child_nodes (load_children node path s).2 node in
  ∀ i j ci cj, i < j → cs !! i = Some ci → cs !! j = Some cj →
    (data_is_dir cj = Some true → data_is_dir ci = Some true) ∧
    (∀ x y, data ci = Some x → data cj = Some y →
            data_is_dir ci = data_is_dir cj →
            str_ltb (str_lower (name y)) (str_lower (name x)) = false).
Proof.
  intros Hlt cs. subst cs.
  rewrite load_children_state, child_nodes_attach_detach by done.
  intros i j ci cj Hij Hi Hj.
  assert (Hone : ∀ c : TreeNode, [c] !! j = None).
  { intros c. apply lookup_ge_None. simpl. lia. }
  destruct path as [p|]; [|done]. simpl in Hi, Hj.
  destruct (fs_is_dir (fs s) p) as [[]|]; [|done..].
  unfold loaded_children in Hi, Hj.
  destruct (fs_iterdir (fs s) p) as [listing|e]; [|by rewrite Hone in Hj].
  destruct (out_map _ listing) as [ks|e] eqn:Hks; [|by rewrite Hone in Hj].
  apply out_map_entry_key_Forall in Hks as [HF _].
  assert (HF' : Forall (λ kx, kx.1 = (kx.1.1, str_lower (name kx.2)))
                       (sort_keyed key_ltb ks)).
  { eapply Permutation_Forall; [symmetry; apply sort_keyed_perm|].
    eapply Forall_impl; [exact HF|]. by intros kx [_ ?]. }
  apply list_lookup_fmap_Some in Hi as (kx & -> & Hi).
  apply list_lookup_fmap_Some in Hj as (ky & -> & Hj).
  pose proof (StronglySorted_lookup_lt _ _ i j _ _
                (sort_keyed_sorted key_ltb key_ltb_asym key_leb_trans ks)
                Hij Hi Hj) as Hle.
  unfold key_le in Hle.
  rewrite (Forall_lookup_1 _ _ _ _ HF' Hi), (Forall_lookup_1 _ _ _ _ HF' Hj) in Hle.
  revert Hle. unfold child_of_key, key_ltb. simpl.
  destruct (kx.1.1), (ky.1.1); simpl; intros Hle; split; try done;
    intros x y [= <-] [= <-] _; done.
Qed.

(** C4: a load followed by a second load on the same filesystem gives the
    same outcome and the same ordered children; the children after a load are
    those the filesystem determines, whatever children the node had before,
    and the filesystem is left as it was. *)
Theorem load_children_idempotent (s : App) (node : nat) (path : option Path) :
  node < length (nodes s) →
  let r1 := load_children node path s in
  let r2 := load_children node path r1.2 in
  r2.1 = r1.1 ∧
  child_nodes r2.2 node = child_nodes r1.2 node ∧
  child_nodes r1.2 node = load_view (fs s) node path ∧
  fs r2.2 = fs s.
Proof.
  intros Hlt r1 r2.
  assert (Hs1 : r1.2 = attach node (load_view (fs s) node path) (detach node s))
    by (by apply load_children_state).
  assert (Hlt1 : node < length (nodes r1.2)).
  { rewrite Hs1, length_nodes_attach, length_nodes_detach. lia. }
  assert (Hfs1 : fs r1.2 = fs s) by (by rewrite Hs1).
  assert (Hs2 : r2.2 = attach node (load_view (fs s) node path) (detach node r1.2)).
  { subst r2. rewrite load_children_state by done. by rewrite Hfs1. }
  split_and!.
  - subst r1 r2. rewrite !load_children_outcome by done. by rewrite Hfs1.
  - rewrite Hs2, child_nodes_attach_detach by done.
    by rewrite Hs1, child_nodes_attach_detach.
  - by rewrite Hs1, child_nodes_attach_detach.
  - by rewrite Hs2.
Qed.

(** C7: when the listing of a directory raises, the load returns normally
    and leaves exactly one child, a placeholder that cannot be expanded and
    carries no path: labelled as a permission error for [PermissionError],
    and otherwise labelled with the first 20 characters of the message. *)
Theorem load_children_listing_error (s : App) (node : nat) (p : Path) (e : exn) :
  node < length (nodes s) →
  fs_is_dir (fs s) p = Return true →
  fs_iterdir (fs s) p = Raise e →
  let r := load_children node (Some p) s in
  r.1 = Return () ∧
  (e_class e = PermissionError →
   child_nodes r.2 node = [MkNode (py "[权限不足]") None None false false [] (Some node)]) ∧
  (e_class e ≠ PermissionError →
   ∃ msg, child_nodes r.2 node
            = [MkNode (py "[加载错误: " ++ msg ++ py "]") None None false false []
                      (Some node)] ∧
          msg = take 20 (e_str e) ∧ length msg ≤ 20).
Proof.
  intros Hlt Hdir Hlist r.
  assert (Hcs : child_nodes r.2 node = [placeholder node e]).
  { subst r. rewrite load_children_state by done.
    rewrite child_nodes_attach_detach by done.
    simpl. rewrite Hdir. unfold loaded_children. by rewrite Hlist. }
  split_and!.
  - subst r. rewrite load_children_outcome by done. by rewrite Hdir.
  - intros Hperm. rewrite Hcs. unfold placeholder, is_permission_error.
    by rewrite bool_decide_eq_true_2.
  - intros Hother. exists (take 20 (e_str e)). split_and!; [|done|].
    + rewrite Hcs. unfold placeholder, is_permission_error.
      by rewrite bool_decide_eq_false_2.
    + rewrite length_take. lia.
Qed.

End LoaderProperties.

(** ** The controller *)

Section Controller.
Context {lower : StrLower}.

Lemma lookup_total_blank (ns : list TreeNode) i : length ns ≤ i → ns !!! i = blank_node.
Proof.
  intros Hge. rewrite list_lookup_total_alt.
  by rewrite (proj2 (lookup_ge_None _ _) Hge).
Qed.

(** A node that carries the directory attribute is an object of the store. *)
Lemma has_dir_attr_valid s i : has_dir_attr (nodes s !!! i) = true → i < length (nodes s).
Proof.
  intros H. destruct (decide (i < length (nodes s))) as [|Hge]; [done|].
  rewrite lookup_total_blank in H by lia. done.
Qed.

Lemma is_dir_node_valid s i : is_dir_node (nodes s !!! i) = true → i < length (nodes s).
Proof.
  intros H. destruct (decide (i < length (nodes s))) as [|Hge]; [done|].
  rewrite lookup_total_blank in H by lia. done.
Qed.

Lemma data_Some_valid s i p : data (nodes s !!! i) = Some p → i < length (nodes s).
Proof.
  intros H. destruct (decide (i < length (nodes s))) as [|Hge]; [done|].
  rewrite lookup_total_blank in H by lia. done.
Qed.

Lemma reload_eval t s :
  t < length (nodes s) →
  stat_returns (fs s) (data (nodes s !!! t)) →
  load_children t (data (nodes s !!! t)) s = (Return (), reloaded t s).
Proof.
  intros Hlt Hstat.
  rewrite (surjective_pairing (load_children _ _ _)).
  rewrite load_children_state, load_children_outcome by done.
  f_equal. destruct (data (nodes s !!! t)) as [p|]; [|done].
  destruct Hstat as [d ->]. done.
Qed.

Lemma expand_eval t s : expand t s = (Return (), expanded t s).
Proof. done. Qed.

Lemma children_alter_with_expanded b t (ns : list TreeNode) i :
  children (alter (with_expanded b) t ns !!! i) = children (ns !!! i).
Proof.
  rewrite list_lookup_total_alter. case_decide as H; [|done].
  destruct H as [-> _]. done.
Qed.

Lemma child_nodes_expanded t s i :
  t ∉ children (nodes s !!! i) →
  child_nodes (expanded t s) i = child_nodes s i.
Proof.
  intros Hnot. unfold child_nodes. simpl.
  rewrite children_alter_with_expanded.
  apply Forall_fmap_ext_1, Forall_forall. intros c Hc.
  apply list_lookup_total_alter_ne. by intros ->.
Qed.

Lemma reloaded_children t s :
  t < length (nodes s) →
  children (nodes (reloaded t s) !!! t)
  = seq (length (nodes s)) (length (load_view (fs s) t (data (nodes s !!! t)))).
Proof.
  intros Hlt. unfold reloaded. simpl.
  rewrite attach_nodes_lookup_eq by (by rewrite length_alter).
  rewrite list_lookup_total_alter_eq by done. simpl. by rewrite length_alter.
Qed.

Lemma child_nodes_reloaded t s :
  t < length (nodes s) →
  child_nodes (reloaded t s) t = load_view (fs s) t (data (nodes s !!! t)).
Proof. intros Hlt. by apply child_nodes_attach_detach. Qed.

Lemma length_nodes_reloaded t s : length (nodes s) ≤ length (nodes (reloaded t s)).
Proof. unfold reloaded. rewrite length_nodes_attach, length_nodes_detach. lia. Qed.

(** A reload changes one object of the old store only, and of that object
    only the children. *)
Lemma reloaded_lookup_ne t s j :
  j < length (nodes s) → j ≠ t → nodes (reloaded t s) !!! j = nodes s !!! j.
Proof.
  intros Hj Hne. unfold reloaded. simpl.
  rewrite attach_nodes_lookup_ne by (by rewrite ?length_alter).
  by apply list_lookup_total_alter_ne.
Qed.

Lemma reloaded_clear_children t s j :
  j < length (nodes s) →
  clear_children (nodes (reloaded t s) !!! j) = clear_children (nodes s !!! j).
Proof.
  intros Hj. destruct (decide (j = t)) as [->|Hne].
  - unfold reloaded. simpl.
    rewrite attach_nodes_lookup_eq by (by rewrite length_alter).
    by rewrite list_lookup_total_alter_eq.
  - by rewrite reloaded_lookup_ne.
Qed.

Lemma child_nodes_expanded_reloaded t s :
  t < length (nodes s) →
  child_nodes (expanded t (reloaded t s)) t = load_view (fs s) t (data (nodes s !!! t)).
Proof.
  intros Hlt. rewrite child_nodes_expanded; [by apply child_nodes_reloaded|].
  rewrite reloaded_children by done. rewrite elem_of_seq. lia.
Qed.

Lemma is_expanded_expanded t s :
  t < length (nodes s) → is_expanded (nodes (expanded t s) !!! t) = true.
Proof. intros Hlt. simpl. by rewrite list_lookup_total_alter_eq. Qed.

Lemma refresh_root_eval r s :
  r < length (nodes s) →
  (data_is_dir (nodes s !!! r) = Some true → stat_returns (fs s) (data (nodes s !!! r))) →
  refresh_root r s =
    (Return (), if bool_decide (data_is_dir (nodes s !!! r) = Some true)
                then reloaded r s else s).
Proof.
  intros Hlt Hstat. unfold refresh_root. rewrite bind_eval.
  unfold get_node, gets. case_bool_decide as Htag; [|done].
  by apply reload_eval; [|apply Hstat].
Qed.

Lemma clear_children_eq_fields a b :
  clear_children a = clear_children b →
  data a = data b ∧ data_is_dir a = data_is_dir b ∧ is_expanded a = is_expanded b.
Proof. intros [=]. done. Qed.

Lemma refresh_roots_eval l : ∀ s,
  Forall (λ r, r < length (nodes s)) l →
  Forall (λ r, data_is_dir (nodes s !!! r) = Some true →
               stat_returns (fs s) (data (nodes s !!! r))) l →
  ∃ s', for_each l refresh_root s = (Return (), s') ∧
        fs s' = fs s ∧ notifications s' = notifications s ∧
        length (nodes s) ≤ length (nodes s') ∧
        (∀ j, j < length (nodes s) →
              clear_children (nodes s' !!! j) = clear_children (nodes s !!! j)) ∧
        (∀ j, j < length (nodes s) → j ∉ l → nodes s' !!! j = nodes s !!! j) ∧
        (∀ r, r ∈ l → data_is_dir (nodes s !!! r) = Some true →
              child_nodes s' r = load_view (fs s) r (data (nodes s !!! r))).
Proof.
  induction l as [|r l IH]; intros s Hvalid Hstat.
  - exists s. split_and!; try done. intros r Hr. by apply elem_of_nil in Hr.
  - inversion_clear Hvalid as [|?? Hr Hvalid'].
    inversion_clear Hstat as [|?? Hsr Hstat'].
    set (s1 := if bool_decide (data_is_dir (nodes s !!! r) = Some true)
               then reloaded r s else s).
    assert (Hfs1 : fs s1 = fs s) by (subst s1; by case_bool_decide).
    assert (Hnot1 : notifications s1 = notifications s) by (subst s1; by case_bool_decide).
    assert (Hlen1 : length (nodes s) ≤ length (nodes s1)).
    { subst s1. case_bool_decide; [apply length_nodes_reloaded|done]. }
    assert (Hcc1 : ∀ j, j < length (nodes s) →
               clear_children (nodes s1 !!! j) = clear_children (nodes s !!! j)).
    { intros j Hj. subst s1. case_bool_decide; [by apply reloaded_clear_children|done]. }
    assert (Hne1 : ∀ j, j < length (nodes s) → j ≠ r → nodes s1 !!! j = nodes s !!! j).
    { intros j Hj Hne. subst s1. case_bool_decide; [by apply reloaded_lookup_ne|done]. }
    destruct (IH s1) as (s' & Hrun & Hfs & Hnot & Hlen & Hcc & Hframe & Hview).
    { eapply Forall_impl; [exact Hvalid'|]. simpl. lia. }
    { rewrite Forall_forall in Hvalid', Hstat'. apply Forall_forall. intros r' Hr'.
      destruct (clear_children_eq_fields _ _ (Hcc1 r' (Hvalid' r' Hr'))) as (-> & -> & _).
      rewrite Hfs1. by apply Hstat'. }
    exists s'. split_and!.
    + change (for_each (r :: l) refresh_root) with (refresh_root r ;; for_each l refresh_root).
      rewrite bind_eval, refresh_root_eval by done. exact Hrun.
    + by rewrite Hfs.
    + by rewrite Hnot.
    + lia.
    + intros j Hj. rewrite Hcc by lia. by apply Hcc1.
    + intros j Hj Hnotin. apply not_elem_of_cons in Hnotin as [Hne Hnotin].
      rewrite Hframe by (done || lia). by apply Hne1.
    + intros r' Hr' Htag.
      destruct (decide (r' ∈ l)) as [Hin|Hnotin].
      * rewrite Forall_forall in Hvalid'.
        destruct (clear_children_eq_fields _ _ (Hcc1 r' (Hvalid' r' Hin))) as (Hd & Ht & _).
        rewrite <- Hd, <- Hfs1. apply Hview; [done|]. by rewrite Ht.
      * apply elem_of_cons in Hr' as [->|?]; [|done].
        assert (Hs1 : s1 = reloaded r s) by (subst s1; by rewrite bool_decide_eq_true_2).
        unfold child_nodes. rewrite Hframe by (done || lia).
        rewrite <- (child_nodes_reloaded r s) by done. rewrite <- Hs1.
        unfold child_nodes. apply Forall_fmap_ext_1, Forall_forall. intros c Hc.
        rewrite Hs1, reloaded_children in Hc by done.
        apply elem_of_seq in Hc as [Hc1 Hc2].
        apply Hframe.
        -- rewrite Hs1. unfold reloaded.
           rewrite length_nodes_attach, length_nodes_detach. lia.
        -- intros Hcl. rewrite Forall_forall in Hvalid'.
           specialize (Hvalid' c Hcl). lia.
Qed.

(** C5: a cancelled confirmation returns after one notification; nothing is
    removed, no call leaves the process, and the tree, the cursor and the
    pending messages are what they were. *)
Theorem handle_delete_confirm_cancel (s : App) :
  let r := handle_delete_confirm false s in
  r.1 = Return () ∧
  syscalls r.2 = syscalls s ∧
  fs r.2 = fs s ∧
  nodes r.2 = nodes s ∧
  cursor_node r.2 = cursor_node s ∧
  messages r.2 = messages s ∧
  notifications r.2 = notifications s ++ [Notify (py "已取消删除") (py "提示") 15].
Proof.
  intros r.
  assert (Hr : r = (Return (), notified (Notify (py "已取消删除") (py "提示") 15) s))
    by done.
  rewrite Hr. by split_and!.
Qed.

(** C9 (the code at the failing input): a confirmation that arrives while
    no node is under the cursor raises [AttributeError]; the read of
    [selected_node.data] stands before the [try] and nothing catches it. *)
Theorem handle_delete_confirm_no_cursor (s : App) :
  handle_delete_confirm true (with_cursor None s)
  = (Raise (Exn AttributeError (py "'NoneType' object has no attribute 'data'")),
     with_cursor None s).
Proof.
  unfold handle_delete_confirm. cbn [negb]. rewrite bind_eval.
  unfold gets. by destruct s.
Qed.

(** The type check of [load_children] stands before its [try]: an exception
    of [is_dir] leaves the loader, after the children were detached. *)
Lemma load_children_stat_escapes (s : App) (node : nat) (p : Path) (e : exn) :
  fs_is_dir (fs s) p = Raise e →
  load_children node (Some p) s = (Raise e, detach node s).
Proof.
  intros He. unfold load_children.
  rewrite bind_eval, remove_children_eval, bind_eval.
  unfold path_is_dir, fs_read. by rewrite fs_detach, He.
Qed.

(** C6: the target of a refresh.  With a directory node under the cursor,
    that node is reloaded and expanded; with any other node under the cursor
    whose parent is a directory node, the parent is reloaded and expanded;
    with no node under the cursor, every top-level directory node is reloaded
    and no object of the tree changes its expansion flag.  The type checks of
    the paths concerned are taken to return. *)
Theorem action_refresh_policy (s : App) :
  let r := action_refresh s in
  (∀ n, cursor_node s = Some n →
        is_dir_node (nodes s !!! n) = true →
        stat_returns (fs s) (data (nodes s !!! n)) →
        r.1 = Return () ∧
        child_nodes r.2 n = load_view (fs s) n (data (nodes s !!! n)) ∧
        is_expanded (nodes r.2 !!! n) = true ∧
        notifications r.2
          = notifications s ++ [Notify (py "已刷新目录") (py "刷新成功") 15]) ∧
  (∀ n par, cursor_node s = Some n →
        is_dir_node (nodes s !!! n) = false →
        parent (nodes s !!! n) = Some par →
        has_dir_attr (nodes s !!! par) = true →
        stat_returns (fs s) (data (nodes s !!! par)) →
        r.1 = Return () ∧
        child_nodes r.2 par = load_view (fs s) par (data (nodes s !!! par)) ∧
        is_expanded (nodes r.2 !!! par) = true ∧
        notifications r.2
          = notifications s ++ [Notify (py "已刷新父目录") (py "刷新成功") 15]) ∧
  (cursor_node s = None →
        Forall (λ t, t < length (nodes s) ∧
                     (data_is_dir (nodes s !!! t) = Some true →
                      stat_returns (fs s) (data (nodes s !!! t))))
               (children (nodes s !!! tree_root)) →
        r.1 = Return () ∧
        (∀ t, t ∈ children (nodes s !!! tree_root) →
              data_is_dir (nodes s !!! t) = Some true →
              child_nodes r.2 t = load_view (fs s) t (data (nodes s !!! t))) ∧
        (∀ j, j < length (nodes s) →
              is_expanded (nodes r.2 !!! j) = is_expanded (nodes s !!! j)) ∧
        notifications r.2
          = notifications s ++ [Notify (py "已刷新文件系统") (py "刷新成功") 15]).
Proof.
  intros r. split_and!.
  - intros n Hcur Hdir Hstat.
    pose proof (is_dir_node_valid _ _ Hdir) as Hlt.
    assert (Hr : r = (Return (), notified (Notify (py "已刷新目录") (py "刷新成功") 15)
                                   (expanded n (reloaded n s)))).
    { subst r. unfold action_refresh. rewrite bind_eval. unfold gets at 1.
      rewrite Hcur, bind_eval. unfold get_node at 1, gets at 1. rewrite Hdir.
      rewrite bind_eval, reload_eval by done. by rewrite bind_eval, expand_eval. }
    rewrite Hr. split_and!; [done| |by apply is_expanded_expanded,
      Nat.lt_le_trans with (length (nodes s)), length_nodes_reloaded|done].
    by apply child_nodes_expanded_reloaded.
  - intros n par Hcur Hdir Hpar Hattr Hstat.
    pose proof (has_dir_attr_valid _ _ Hattr) as Hlt.
    assert (Hr : r = (Return (), notified (Notify (py "已刷新父目录") (py "刷新成功") 15)
                                   (expanded par (reloaded par s)))).
    { subst r. unfold action_refresh. rewrite bind_eval. unfold gets at 1.
      rewrite Hcur, bind_eval. unfold get_node at 1, gets at 1. rewrite Hdir, Hpar.
      rewrite bind_eval. unfold get_node at 1, gets at 1. rewrite Hattr.
      rewrite bind_eval, reload_eval by done. by rewrite bind_eval, expand_eval. }
    rewrite Hr. split_and!; [done| |by apply is_expanded_expanded,
      Nat.lt_le_trans with (length (nodes s)), length_nodes_reloaded|done].
    by apply child_nodes_expanded_reloaded.
  - intros Hcur Hroots.
    destruct (refresh_roots_eval (children (nodes s !!! tree_root)) s)
      as (s' & Hrun & Hfs & Hnot & Hlen & Hcc & _ & Hview).
    { eapply Forall_impl; [exact Hroots|]. by intros t [? _]. }
    { eapply Forall_impl; [exact Hroots|]. by intros t [_ ?]. }
    assert (Hr : r = (Return (), notified (Notify (py "已刷新文件系统") (py "刷新成功") 15) s')).
    { subst r. unfold action_refresh. rewrite bind_eval. unfold gets at 1.
      rewrite Hcur, bind_eval. unfold get_node at 1, gets at 1.
      by rewrite bind_eval, Hrun. }
    rewrite Hr. split_and!; [done|exact Hview| |by simpl; rewrite Hnot].
    intros j Hj. simpl.
    by destruct (clear_children_eq_fields _ _ (Hcc j Hj)) as (_ & _ & ->).
Qed.



End Controller.

(** ** Deletion *)

Section Deletion.
Context {lower : StrLower}.

Lemma fs_lookup_None f p : fs_lookup f p = None ↔ p ∉ f.*1.
Proof.
  induction f as [|[q i] f IH]; simpl.
  - split; [intros _; apply not_elem_of_nil|done].
  - rewrite not_elem_of_cons. destruct (decide (q = p)) as [->|Hne].
    + split; [done|]. by intros [? _].
    + rewrite IH. split; [by intros ?|by intros [_ ?]].
Qed.

Lemma fs_is_file_gone f p : fs_lookup f p = None → fs_is_file f p = Return false.
Proof. intros H. unfold fs_is_file, fs_stat. by rewrite H. Qed.

Lemma fs_is_dir_gone f p : fs_lookup f p = None → fs_is_dir f p = Return false.
Proof. intros H. unfold fs_is_dir, fs_stat. by rewrite H. Qed.

Lemma fs_unlink_gone f p f' : fs_unlink f p = Return f' → fs_lookup f' p = None.
Proof.
  unfold fs_unlink. destruct (fs_lookup f p) as [i|]; [|done].
  destruct (i_del i); [done|]. destruct (i_kind i); [|done].
  intros [= <-]. apply fs_lookup_None.
  intros ([q j] & -> & Hin%list_elem_of_filter)%list_elem_of_fmap.
  by destruct Hin as [Hne _].
Qed.

Lemma fs_iterdir_entries f p listing :
  fs_iterdir f p = Return listing → listing = fs_entries f p.
Proof.
  unfold fs_iterdir. destruct (fs_lookup f p) as [i|]; [|done].
  destruct (i_list i); [done|]. destruct (i_kind i); [done|]. by intros [= <-].
Qed.

(** The children of a load carry no path, or the path of an entry of the
    filesystem. *)
Lemma load_view_data f node path c :
  c ∈ load_view f node path → data c = None ∨ ∃ x, data c = Some x ∧ x ∈ f.*1.
Proof.
  destruct path as [p|]; simpl; [|by intros ?%elem_of_nil].
  destruct (fs_is_dir f p) as [[]|]; [|by intros ?%elem_of_nil..].
  unfold loaded_children.
  destruct (fs_iterdir f p) as [listing|e] eqn:Hlist;
    [|intros ->%list_elem_of_singleton; by left].
  destruct (out_map _ listing) as [ks|e] eqn:Hks;
    [|intros ->%list_elem_of_singleton; by left].
  intros (kx & -> & Hin)%list_elem_of_fmap. right. exists kx.2. split.
  - unfold child_of_key. by destruct (kx.1.1).
  - apply out_map_entry_key_Forall in Hks as [_ Hl].
    apply fs_iterdir_entries in Hlist. subst listing.
    rewrite sort_keyed_perm in Hin.
    assert (Hx : kx.2 ∈ fs_entries f p).
    { rewrite <- Hl. apply list_elem_of_fmap. by exists kx. }
    unfold fs_entries in Hx. by apply list_elem_of_filter in Hx as [_ ?].
Qed.

Lemma load_view_not_listed f node path p :
  fs_lookup f p = None → Forall (λ c, data c ≠ Some p) (load_view f node path).
Proof.
  intros Hgone%fs_lookup_None. apply Forall_forall. intros c Hc.
  destruct (load_view_data _ _ _ _ Hc) as [->|(x & -> & Hx)]; [done|].
  intros [= ->]. done.
Qed.

Lemma refresh_parent_eval n par s :
  parent (nodes s !!! n) = Some par →
  has_dir_attr (nodes s !!! par) = true →
  stat_returns (fs s) (data (nodes s !!! par)) →
  refresh_parent n s = (Return (), expanded par (reloaded par s)).
Proof.
  intros Hpar Hattr Hstat. pose proof (has_dir_attr_valid _ _ Hattr) as Hlt.
  unfold refresh_parent. rewrite bind_eval. unfold get_node at 1, gets at 1.
  rewrite Hpar, bind_eval. unfold get_node at 1, gets at 1. rewrite Hattr.
  by rewrite bind_eval, reload_eval.
Qed.



(** C2 (as amended): a confirmed deletion of a file that exists and that
    the host lets go performs exactly one removal, the [unlink] of the path of
    the node under the cursor; when the type check of the parent's path
    returns, the parent of the node is then reloaded from the filesystem as
    the removal left it and is expanded, no child of the parent carries the
    removed path, and the success is notified. *)
Theorem handle_delete_confirm_file (s : App) (n par : nat) (p : Path) (f' : filesystem) :
  cursor_node s = Some n →
  data (nodes s !!! n) = Some p →
  fs_is_file (fs s) p = Return true →
  fs_unlink (fs s) p = Return f' →
  parent (nodes s !!! n) = Some par →
  has_dir_attr (nodes s !!! par) = true →
  stat_returns f' (data (nodes s !!! par)) →
  let r := handle_delete_confirm true s in
  r.1 = Return () ∧
  syscalls r.2 = syscalls s ++ [Unlink p] ∧
  fs r.2 = f' ∧
  fs_lookup (fs r.2) p = None ∧
  child_nodes r.2 par = load_view (fs r.2) par (data (nodes s !!! par)) ∧
  is_expanded (nodes r.2 !!! par) = true ∧
  Forall (λ c, data c ≠ Some p) (child_nodes r.2 par) ∧
  notifications r.2
    = notifications s ++ [Notify (py "已删除：" ++ name p) (py "删除成功") 20].
Proof.
  intros Hcur Hdata Hfile Hunlink Hpar Hattr Hstat r.
  pose proof (has_dir_attr_valid _ _ Hattr) as Hlt.
  set (s1 := with_fs f' (with_syscalls (syscalls s ++ [Unlink p]) s)).
  assert (Hr : r = (Return (),
                    notified (Notify (py "已删除：" ++ name p) (py "删除成功") 20)
                             (expanded par (reloaded par s1)))).
  { subst r. unfold handle_delete_confirm. cbn [negb].
    rewrite bind_eval. unfold gets at 1. rewrite Hcur.
    rewrite bind_eval. unfold get_node at 1, gets at 1. rewrite Hdata.
    unfold try_except. rewrite bind_eval.
    unfold path_is_file at 1, fs_read at 1. rewrite Hfile.
    rewrite bind_eval. unfold path_unlink, fs_remove. rewrite Hunlink.
    fold s1. rewrite bind_eval, (refresh_parent_eval n par s1) by done.
    done. }
  assert (Hview : child_nodes r.2 par = load_view f' par (data (nodes s !!! par))).
  { rewrite Hr. cbn [snd].
    change (child_nodes (notified _ ?x) par) with (child_nodes x par).
    by rewrite child_nodes_expanded_reloaded. }
  rewrite Hr in *. cbn [fst snd] in *|-*.
  split_and!; try done.
  - by eapply fs_unlink_gone.
  - apply is_expanded_expanded.
    eapply Nat.lt_le_trans; [exact Hlt|apply (length_nodes_reloaded par s1)].
  - rewrite Hview. apply load_view_not_listed. by eapply fs_unlink_gone.
Qed.

(** C1 (the code at the failing input): when the path of the node under
    the cursor is gone at confirmation time, neither branch of the type test
    is taken and nothing is raised; the handler goes on as after a removal:
    the parent is reloaded and expanded, the stale node is no longer among
    its children, and the notification reports a successful deletion. *)
Theorem handle_delete_confirm_vanished (s : App) (n par : nat) (p : Path) :
  cursor_node s = Some n →
  data (nodes s !!! n) = Some p →
  fs_lookup (fs s) p = None →
  parent (nodes s !!! n) = Some par →
  has_dir_attr (nodes s !!! par) = true →
  stat_returns (fs s) (data (nodes s !!! par)) →
  let r := handle_delete_confirm true s in
  r.1 = Return () ∧
  syscalls r.2 = syscalls s ∧
  child_nodes r.2 par = load_view (fs s) par (data (nodes s !!! par)) ∧
  (n ∉ children (nodes r.2 !!! par)) ∧
  is_expanded (nodes r.2 !!! par) = true ∧
  notifications r.2
    = notifications s ++ [Notify (py "已删除：" ++ name p) (py "删除成功") 20].
Proof.
  intros Hcur Hdata Hgone Hpar Hattr Hstat r.
  pose proof (has_dir_attr_valid _ _ Hattr) as Hlt.
  pose proof (data_Some_valid _ _ _ Hdata) as Hn.
  assert (Hr : r = (Return (),
                    notified (Notify (py "已删除：" ++ name p) (py "删除成功") 20)
                             (expanded par (reloaded par s)))).
  { subst r. unfold handle_delete_confirm. cbn [negb].
    rewrite bind_eval. unfold gets at 1. rewrite Hcur.
    rewrite bind_eval. unfold get_node at 1, gets at 1. rewrite Hdata.
    unfold try_except. rewrite bind_eval.
    unfold path_is_file at 1, fs_read at 1. rewrite (fs_is_file_gone _ _ Hgone).
    rewrite !bind_eval.
    unfold path_is_dir at 1, fs_read at 1. rewrite (fs_is_dir_gone _ _ Hgone).
    unfold mret at 1, M_ret at 1.
    rewrite bind_eval, (refresh_parent_eval n par s) by done. done. }
  rewrite Hr. cbn [fst snd].
  change (child_nodes (notified _ ?x) par) with (child_nodes x par).
  split_and!; try done.
  - by apply child_nodes_expanded_reloaded.
  - change (nodes (notified _ ?x)) with (nodes x).
    change (nodes (expanded par ?x)) with (alter (with_expanded true) par (nodes x)).
    rewrite children_alter_with_expanded.
    rewrite (reloaded_children par s) by done. rewrite elem_of_seq. lia.
  - apply is_expanded_expanded.
    eapply Nat.lt_le_trans; [exact Hlt|apply (length_nodes_reloaded par s)].
Qed.



End Deletion.

(** * The claims on concrete runs *)

(** C3 (as amended): after every load, no file node stands before a
    directory node, and among the nodes of one kind the lowered names never
    decrease; when the listing and the type checks return, the children are
    the listed entries, one node each, and entries of equal key (same kind,
    same lowered name) keep the order in which the host listed them.  In
    particular a host that lists bravo, Alpha.txt, charlie, alpha.txt in this
    order gives the children bravo, charlie, Alpha.txt, alpha.txt.  The
    statement is about every load, hence about every reload. *)
Theorem load_children_order :
  (∀ (lower : StrLower) (s : App) (node : nat) (path : option Path),
     node < length (nodes s) →
     let r := load_children node path s in
     let cs := child_nodes r.2 node in
     (∀ i j ci cj, i < j → cs !! i = Some ci → cs !! j = Some cj →
        (data_is_dir cj = Some true → data_is_dir ci = Some true) ∧
        (∀ x y, data ci = Some x → data cj = Some y →
                data_is_dir ci = data_is_dir cj →
                str_ltb (str_lower (name y)) (str_lower (name x)) = false)) ∧
     (∀ p listing,
        path = Some p →
        fs_is_dir (fs s) p = Return true →
        fs_iterdir (fs s) p = Return listing →
        Forall (λ x, ∃ d, fs_is_dir (fs s) x = Return d) listing →
        ∃ entries : list Path,
          r.1 = Return () ∧
          cs = (λ x, if is_directory (fs s) x then dir_child node x
                     else file_child node x) <$> entries ∧
          entries ≡ₚ listing ∧
          (∀ k, filter (λ x, path_key (fs s) x = k) entries
                = filter (λ x, path_key (fs s) x = k) listing))) ∧
  (let home := posix ["home"%string] in
   fs_iterdir fs_example home
     = Return [posix ["home"; "bravo"]%string; posix ["home"; "Alpha.txt"]%string;
               posix ["home"; "charlie"]%string; posix ["home"; "alpha.txt"]%string] ∧
   label <$> child_nodes (run (load_children 2 (Some home)) (started fs_example)) 2
     = [py "📁 bravo"; py "📁 charlie"; py "Alpha.txt"; py "alpha.txt"]).
Proof.
  split.
  - intros lower s node path Hlt r cs. split.
    + by apply load_children_ordered.
    + intros p listing -> Hdir Hlist Hstat.
      destruct (load_children_sorted_entries s node p listing Hlt Hdir Hlist Hstat)
        as (entries & Hr & Hcs & Hperm & _ & Hstable & _).
      by exists entries.
  - split; vm_compute; reflexivity.
Qed.

Lemma load_children_order_witness :
  let s := started fs_example in
  let path := Some (posix ["home"%string]) in
  2 < length (nodes s) ∧
  let r := load_children 2 path s in
  let cs := child_nodes r.2 2 in
  (∀ i j ci cj, i < j → cs !! i = Some ci → cs !! j = Some cj →
     (data_is_dir cj = Some true → data_is_dir ci = Some true) ∧
     (∀ x y, data ci = Some x → data cj = Some y →
             data_is_dir ci = data_is_dir cj →
             str_ltb (str_lower (name y)) (str_lower (name x)) = false)) ∧
  (∀ p listing,
     path = Some p →
     fs_is_dir (fs s) p = Return true →
     fs_iterdir (fs s) p = Return listing →
     Forall (λ x, ∃ d, fs_is_dir (fs s) x = Return d) listing →
     ∃ entries : list Path,
       r.1 = Return () ∧
       cs = (λ x, if is_directory (fs s) x then dir_child 2 x
                  else file_child 2 x) <$> entries ∧
       entries ≡ₚ listing ∧
       (∀ k, filter (λ x, path_key (fs s) x = k) entries
             = filter (λ x, path_key (fs s) x = k) listing)).
Proof.
  intros s path. split; [vm_compute; lia|].
  apply (proj1 load_children_order ascii_StrLower s 2 path).
  vm_compute. lia.
Defined.

(** C3, as stated, fails: the same four entries, listed by the host with
    alpha.txt before Alpha.txt, are loaded as bravo, charlie, alpha.txt,
    Alpha.txt. *)
Lemma load_children_order_counterexample :
  let home := posix ["home"%string] in
  let s := run (load_children 2 (Some home)) (started fs_example_swapped) in
  fs_entries fs_example_swapped home ≡ₚ fs_entries fs_example home ∧
  label <$> child_nodes s 2
    = [py "📁 bravo"; py "📁 charlie"; py "alpha.txt"; py "Alpha.txt"] ∧
  label <$> child_nodes s 2
    ≠ [py "📁 bravo"; py "📁 charlie"; py "Alpha.txt"; py "alpha.txt"].
Proof.
  split_and!.
  - vm_compute. apply (Permutation_cons_append [_; _; _]).
  - vm_compute. reflexivity.
  - vm_compute. discriminate.
Qed.

Lemma load_children_idempotent_witness :
  let s := started fs_example in
  let path := Some (posix ["home"%string]) in
  let r1 := load_children 2 path s in
  let r2 := load_children 2 path r1.2 in
  r2.1 = r1.1 ∧
  child_nodes r2.2 2 = child_nodes r1.2 2 ∧
  child_nodes r1.2 2 = load_view (fs s) 2 path ∧
  fs r2.2 = fs s.
Proof.
  apply (load_children_idempotent (started fs_example) 2 (Some (posix ["home"%string]))).
  vm_compute. lia.
Defined.

Lemma load_children_listing_error_witness :
  let s := run on_mount (boot fs_faulty) in
  let p := posix ["secret"%string] in
  let e := Exn PermissionError (py "[Errno 13] Permission denied: '/secret'") in
  let r := load_children 3 (Some p) s in
  r.1 = Return () ∧
  (e_class e = PermissionError →
   child_nodes r.2 3 = [MkNode (py "[权限不足]") None None false false [] (Some 3)]) ∧
  (e_class e ≠ PermissionError →
   ∃ msg, child_nodes r.2 3
            = [MkNode (py "[加载错误: " ++ msg ++ py "]") None None false false []
                      (Some 3)] ∧
          msg = take 20 (e_str e) ∧ length msg ≤ 20).
Proof.
  apply (load_children_listing_error (run on_mount (boot fs_faulty)) 3
           (posix ["secret"%string])).
  - vm_compute. lia.
  - reflexivity.
  - reflexivity.
Defined.

(** The two placeholders on a concrete host: the label of the I/O error
    keeps 20 characters of the message. *)
Example load_children_placeholders :
  let s := run (on_mount ;; on_tree_node_expanded 2 ;; on_tree_node_expanded 3)
               (boot fs_faulty) in
  label <$> child_nodes s 2 = [py "[加载错误: [Errno 5] Input/outp]"] ∧
  label <$> child_nodes s 3 = [py "[权限不足]"].
Proof. split; vm_compute; reflexivity. Qed.

(** In [started fs_example] the objects are: 0 the tree root, 1 the node of
    [/], 2 the node of [/home], 3 bravo, 4 charlie, 5 Alpha.txt and
    6 alpha.txt. *)
Example started_objects :
  label <$> nodes (started fs_example)
  = [py "文件系统"; py "📁 /"; py "📁 home"; py "📁 bravo"; py "📁 charlie";
     py "Alpha.txt"; py "alpha.txt"].
Proof. vm_compute. reflexivity. Qed.

Lemma action_refresh_policy_witness :
  let sa := with_cursor (Some 2) (started fs_example) in
  let sb := with_cursor (Some 5) (started fs_example) in
  let sc := started fs_example in
  let ra := action_refresh sa in
  let rb := action_refresh sb in
  let rc := action_refresh sc in
  (ra.1 = Return () ∧
   child_nodes ra.2 2 = load_view (fs sa) 2 (data (nodes sa !!! 2)) ∧
   is_expanded (nodes ra.2 !!! 2) = true ∧
   notifications ra.2
     = notifications sa ++ [Notify (py "已刷新目录") (py "刷新成功") 15]) ∧
  (rb.1 = Return () ∧
   child_nodes rb.2 2 = load_view (fs sb) 2 (data (nodes sb !!! 2)) ∧
   is_expanded (nodes rb.2 !!! 2) = true ∧
   notifications rb.2
     = notifications sb ++ [Notify (py "已刷新父目录") (py "刷新成功") 15]) ∧
  (rc.1 = Return () ∧
   (∀ t, t ∈ children (nodes sc !!! tree_root) →
         data_is_dir (nodes sc !!! t) = Some true →
         child_nodes rc.2 t = load_view (fs sc) t (data (nodes sc !!! t))) ∧
   (∀ j, j < length (nodes sc) →
         is_expanded (nodes rc.2 !!! j) = is_expanded (nodes sc !!! j)) ∧
   notifications rc.2
     = notifications sc ++ [Notify (py "已刷新文件系统") (py "刷新成功") 15]).
Proof.
  intros sa sb sc ra rb rc. split; [|split].
  - apply (proj1 (action_refresh_policy sa) 2).
    + vm_compute; reflexivity.
    + vm_compute; reflexivity.
    + vm_compute. exists true. reflexivity.
  - apply (proj1 (proj2 (action_refresh_policy sb)) 5 2).
    + vm_compute; reflexivity.
    + vm_compute; reflexivity.
    + vm_compute; reflexivity.
    + vm_compute; reflexivity.
    + vm_compute. exists true. reflexivity.
  - apply (proj2 (proj2 (action_refresh_policy sc))).
    + vm_compute; reflexivity.
    + vm_compute. constructor; [|constructor].
      split; [lia|]. intros _. exists true. reflexivity.
Defined.

Lemma handle_delete_confirm_file_witness :
  let s := with_cursor (Some 5) (started fs_example) in
  let p := posix ["home"; "Alpha.txt"]%string in
  let r := handle_delete_confirm true s in
  r.1 = Return () ∧
  syscalls r.2 = syscalls s ++ [Unlink p] ∧
  fs r.2 = fs_example_deleted ∧
  fs_lookup (fs r.2) p = None ∧
  child_nodes r.2 2 = load_view (fs r.2) 2 (data (nodes s !!! 2)) ∧
  is_expanded (nodes r.2 !!! 2) = true ∧
  Forall (λ c, data c ≠ Some p) (child_nodes r.2 2) ∧
  notifications r.2
    = notifications s ++ [Notify (py "已删除：" ++ name p) (py "删除成功") 20].
Proof.
  apply (handle_delete_confirm_file (with_cursor (Some 5) (started fs_example)) 5 2
           (posix ["home"; "Alpha.txt"]%string) fs_example_deleted).
  - vm_compute; reflexivity.
  - vm_compute; reflexivity.
  - vm_compute; reflexivity.
  - vm_compute; reflexivity.
  - vm_compute; reflexivity.
  - vm_compute; reflexivity.
  - vm_compute. exists true. reflexivity.
Defined.

(** C2, as stated, fails: a file that exists when the deletion is confirmed
    and that the host refuses to remove.  One [unlink] is attempted; the file
    is still there, the parent is not reloaded, and the entry is still among
    the children of the parent. *)
Lemma handle_delete_confirm_file_counterexample :
  let s := with_cursor (Some 3) (started fs_locked) in
  let p := posix ["home"; "locked.txt"]%string in
  let r := handle_delete_confirm true s in
  (data (nodes s !!! 3) = Some p ∧ parent (nodes s !!! 3) = Some 2 ∧
   fs_is_file (fs s) p = Return true) ∧
  syscalls r.2 = [Unlink p] ∧
  fs_is_file (fs r.2) p = Return true ∧
  nodes r.2 = nodes s ∧
  data <$> child_nodes r.2 2 = [Some p] ∧
  ¬ Forall (λ c, data c ≠ Some p) (child_nodes r.2 2).
Proof.
  split_and!; try (vm_compute; reflexivity).
  vm_compute. intros H. inversion H as [|?? Hne _]. by apply Hne.
Qed.

(** The same deletion as a run: the children of [/home] afterwards. *)
Example delete_file_run :
  let s := run (run_events [CursorMoved (Some 5); Key (py "ctrl+d");
                            ButtonPressed (py "delete")])
               (started fs_example) in
  syscalls s = [Unlink (posix ["home"; "Alpha.txt"]%string)] ∧
  label <$> child_nodes s 2 = [py "📁 bravo"; py "📁 charlie"; py "alpha.txt"] ∧
  n_message <$> notifications s = [py "已删除：Alpha.txt"].
Proof. split_and!; vm_compute; reflexivity. Qed.

Lemma handle_delete_confirm_vanished_witness :
  let s := with_fs fs_example_deleted (with_cursor (Some 5) (started fs_example)) in
  let p := posix ["home"; "Alpha.txt"]%string in
  let r := handle_delete_confirm true s in
  r.1 = Return () ∧
  syscalls r.2 = syscalls s ∧
  child_nodes r.2 2 = load_view (fs s) 2 (data (nodes s !!! 2)) ∧
  (5 ∉ children (nodes r.2 !!! 2)) ∧
  is_expanded (nodes r.2 !!! 2) = true ∧
  notifications r.2
    = notifications s ++ [Notify (py "已删除：" ++ name p) (py "删除成功") 20].
Proof.
  apply (handle_delete_confirm_vanished
           (with_fs fs_example_deleted (with_cursor (Some 5) (started fs_example)))
           5 2 (posix ["home"; "Alpha.txt"]%string)).
  - vm_compute; reflexivity.
  - vm_compute; reflexivity.
  - vm_compute; reflexivity.
  - vm_compute; reflexivity.
  - vm_compute; reflexivity.
  - vm_compute. exists true. reflexivity.
Defined.

(** The failing run of C1: the dialog is opened for Alpha.txt, the file is
    removed by another process, the deletion is confirmed.  Nothing is
    unlinked, and the user is told that Alpha.txt was deleted. *)
Example delete_vanished_run :
  let s1 := run (run_events [CursorMoved (Some 5); Key (py "ctrl+d")])
                (started fs_example) in
  let s2 := run (dispatch (ButtonPressed (py "delete")))
                (with_fs fs_example_deleted s1) in
  screens s1 = [posix ["home"; "Alpha.txt"]%string] ∧
  syscalls s2 = [] ∧
  notifications s2 = [Notify (py "已删除：Alpha.txt") (py "删除成功") 20].
Proof. split_and!; vm_compute; reflexivity. Qed.

(** The failing run of C9: the confirmation arrives while no node is under
    the cursor, and the exception leaves the handler. *)
Example delete_without_cursor_run :
  let s1 := run (run_events [CursorMoved (Some 5); Key (py "ctrl+d");
                             CursorMoved None])
                (started fs_example) in
  (dispatch (ButtonPressed (py "delete")) s1).1
  = Raise (Exn AttributeError (py "'NoneType' object has no attribute 'data'")).
Proof. vm_compute. reflexivity. Qed.

(** A second way out of the handlers for an exception: a refresh on a
    directory whose type check is refused. *)
Example refresh_denied_run :
  let denied := Exn PermissionError (py "[Errno 13] Permission denied: '/home'") in
  let f := [ (posix [], plain KDir);
             (posix ["home"%string], Inode KDir (Some denied) None None) ] in
  (action_refresh (with_fs f (with_cursor (Some 2) (started fs_example)))).1
  = Raise denied.
Proof. vm_compute. reflexivity. Qed.

(** * Further properties of the handlers *)

(** ** What a run preserves *)

Section Preserves.
Context (R : App → App → Prop) `{!Reflexive R, !Transitive R}.

Lemma preserves_ret {A} (a : A) : preserves R (mret a : M A).
Proof. intros s. simpl. reflexivity. Qed.

Lemma preserves_raise {A} (e : exn) : preserves R (raise e : M A).
Proof. intros s. simpl. reflexivity. Qed.

Lemma preserves_gets {A} (f : App → A) : preserves R (gets f).
Proof. intros s. simpl. reflexivity. Qed.

Lemma preserves_fs_read {A} (f : filesystem → outcome A) : preserves R (fs_read f).
Proof. intros s. simpl. reflexivity. Qed.

Lemma preserves_path_resolve (p : Path) : preserves R (path_resolve p).
Proof. intros s. simpl. reflexivity. Qed.

Lemma preserves_bind {A B} (m : M A) (k : A → M B) :
  preserves R m → (∀ a, preserves R (k a)) → preserves R (m ≫= k).
Proof.
  intros Hm Hk s. rewrite bind_eval. specialize (Hm s).
  destruct (m s) as [[a|e] s1]; simpl in *; [|done].
  etrans; [exact Hm|apply Hk].
Qed.

Lemma preserves_try_except {A} (body : M A) (handler : exn → M A) :
  preserves R body → (∀ e, preserves R (handler e)) →
  preserves R (try_except body handler).
Proof.
  intros Hb Hh s. unfold try_except. specialize (Hb s).
  destruct (body s) as [[a|e] s1]; simpl in *; [done|].
  etrans; [exact Hb|apply Hh].
Qed.

Lemma preserves_for_each {A} (l : list A) (body : A → M unit) :
  (∀ x, preserves R (body x)) → preserves R (for_each l body).
Proof.
  intros Hb. induction l as [|x l IH]; simpl.
  - apply preserves_ret.
  - apply preserves_bind; [apply Hb|by intros _].
Qed.

Lemma preserves_map_m {A B} (f : A → M B) (l : list A) :
  (∀ x, preserves R (f x)) → preserves R (map_m f l).
Proof.
  intros Hf. induction l as [|x l IH]; simpl.
  - apply preserves_ret.
  - apply preserves_bind; [apply Hf|intros y].
    apply preserves_bind; [exact IH|intros ys]. apply preserves_ret.
Qed.

Lemma preserves_fold_left {A B} (f : M B → A → M B) (l : list A) (m : M B) :
  (∀ m' x, preserves R m' → preserves R (f m' x)) →
  preserves R m → preserves R (fold_left f l m).
Proof.
  intros Hf. revert m. induction l as [|x l IH]; intros m Hm; simpl; [done|].
  apply IH, Hf, Hm.
Qed.

End Preserves.

Global Instance grows_refl : Reflexive grows.
Proof. intros s. by split. Qed.

Global Instance grows_trans : Transitive grows.
Proof.
  intros s1 s2 s3 [Hl1 H1] [Hl2 H2]. split; [lia|].
  intros j Hj. rewrite H2 by lia. by apply H1.
Qed.

Global Instance same_fs_refl : Reflexive same_fs.
Proof. by intros s. Qed.

Global Instance same_fs_trans : Transitive same_fs.
Proof. unfold same_fs. intros s1 s2 s3 H1 H2. congruence. Qed.

Global Instance same_syscalls_refl : Reflexive same_syscalls.
Proof. by intros s. Qed.

Global Instance same_syscalls_trans : Transitive same_syscalls.
Proof. unfold same_syscalls. intros s1 s2 s3 H1 H2. congruence. Qed.

Global Instance same_screens_refl : Reflexive same_screens.
Proof. by intros s. Qed.

Global Instance same_screens_trans : Transitive same_screens.
Proof. unfold same_screens. intros s1 s2 s3 H1 H2. congruence. Qed.

Global Instance same_cursor_refl : Reflexive same_cursor.
Proof. by intros s. Qed.

Global Instance same_cursor_trans : Transitive same_cursor.
Proof. unfold same_cursor. intros s1 s2 s3 H1 H2. congruence. Qed.

Lemma grows_nodes_eq s s' : nodes s' = nodes s → grows s s'.
Proof. intros H. unfold grows. rewrite H. by split. Qed.

Lemma grows_alter (f : TreeNode → TreeNode) i ns (s : App) :
  (∀ n, identity (f n) = identity n) →
  length (nodes s) ≤ length ns →
  (∀ j, j < length (nodes s) → identity (ns !!! j) = identity (nodes s !!! j)) →
  grows s (with_nodes (alter f i ns) s).
Proof.
  intros Hf Hlen Hns. split; simpl.
  - by rewrite length_alter.
  - intros j Hj. rewrite list_lookup_total_alter.
    case_decide as Hd; [|by apply Hns].
    destruct Hd as [-> _]. rewrite Hf. by apply Hns.
Qed.

Lemma grows_update_node (f : TreeNode → TreeNode) i :
  (∀ n, identity (f n) = identity n) → preserves grows (update_node i f).
Proof. intros Hf s. simpl. by apply grows_alter. Qed.

Lemma grows_node_add i lbl d allow : preserves grows (node_add i lbl d allow).
Proof.
  intros s. simpl. apply grows_alter; [done|rewrite length_app; lia|].
  intros j Hj. by rewrite lookup_total_app_l.
Qed.

(** A tagged node is created in one step as far as the old objects are
    concerned: the attribute is set on the object just created. *)
Lemma grows_node_add_tagged i lbl d allow b :
  preserves grows (child ← node_add i lbl d allow; set_data_is_dir child b).
Proof.
  intros s. rewrite bind_eval. simpl. split; simpl.
  - rewrite !length_alter, length_app. lia.
  - intros j Hj. rewrite list_lookup_total_alter_ne by lia.
    rewrite list_lookup_total_alter.
    case_decide as Hd; [destruct Hd as [-> _]|]; by rewrite lookup_total_app_l.
Qed.

Section PreservesHandlers.
Context {lower : StrLower}.

Ltac pres_step :=
  lazymatch goal with
  | |- preserves ?R (_ ≫= _) => apply (preserves_bind R); [|intros ?]
  | |- preserves ?R (try_except _ _) => apply (preserves_try_except R); [|intros ?]
  | |- preserves ?R (for_each _ _) => apply (preserves_for_each R); intros ?
  | |- preserves ?R (mret _) => apply (preserves_ret R)
  | |- preserves ?R (raise _) => apply (preserves_raise R)
  | |- preserves ?R (gets _) => apply (preserves_gets R)
  | |- preserves ?R (get_node _) => apply (preserves_gets R)
  | |- preserves ?R (fs_read _) => apply (preserves_fs_read R)
  | |- preserves ?R (path_resolve _) => apply (preserves_path_resolve R)
  | |- preserves _ (if ?b then _ else _) => destruct b
  | |- preserves _ (match ?x with _ => _ end) => destruct x
  end.

Ltac pres_leaf :=
  first [ by intros ?
        | by intros ?; unfold same_fs, same_syscalls, same_screens, same_cursor
        | by intros ?; apply grows_nodes_eq
        | by apply grows_update_node
        | apply grows_node_add ].

Ltac pres := repeat (first [pres_step | pres_leaf]).

Lemma add_entry_grows node entry : preserves grows (add_entry node entry).
Proof.
  unfold add_entry, path_is_dir, path_is_file.
  apply (preserves_try_except grows); [|intros e; pres].
  apply (preserves_bind grows); [pres|intros d].
  apply (preserves_bind grows); [pres|intros [|]].
  - apply grows_node_add_tagged.
  - pres.
Qed.

Lemma sorted_preserves R `{!Reflexive R, !Transitive R} l :
  preserves R (sorted key_ltb entry_key l).
Proof.
  unfold sorted, entry_key, path_is_dir.
  apply (preserves_bind R); [|intros ?; apply (preserves_ret R)].
  apply (preserves_map_m R). intros x. pres.
Qed.

Lemma load_children_grows node path : preserves grows (load_children node path).
Proof.
  unfold load_children, remove_children, path_is_dir, path_iterdir.
  apply (preserves_bind grows); [by apply grows_update_node|intros _].
  destruct path as [p|]; [|pres].
  apply (preserves_bind grows); [pres|intros d]. destruct (negb d); [pres|].
  apply (preserves_try_except grows); [|intros e; pres].
  apply (preserves_bind grows); [pres|intros listing].
  apply (preserves_bind grows); [apply (sorted_preserves grows)|intros entries].
  apply (preserves_for_each grows), add_entry_grows.
Qed.

Lemma load_children_same_fs node path : preserves same_fs (load_children node path).
Proof.
  unfold load_children, remove_children, path_is_dir, path_iterdir.
  apply (preserves_bind same_fs); [pres|intros _].
  destruct path as [p|]; [|pres].
  apply (preserves_bind same_fs); [pres|intros d]. destruct (negb d); [pres|].
  apply (preserves_try_except same_fs); [|intros e; pres].
  apply (preserves_bind same_fs); [pres|intros listing].
  apply (preserves_bind same_fs); [apply (sorted_preserves same_fs)|intros entries].
  apply (preserves_for_each same_fs). intros entry.
  unfold add_entry, path_is_dir, path_is_file. pres.
Qed.

Lemma load_children_same_syscalls node path :
  preserves same_syscalls (load_children node path).
Proof.
  unfold load_children, remove_children, path_is_dir, path_iterdir.
  apply (preserves_bind same_syscalls); [pres|intros _].
  destruct path as [p|]; [|pres].
  apply (preserves_bind same_syscalls); [pres|intros d]. destruct (negb d); [pres|].
  apply (preserves_try_except same_syscalls); [|intros e; pres].
  apply (preserves_bind same_syscalls); [pres|intros listing].
  apply (preserves_bind same_syscalls);
    [apply (sorted_preserves same_syscalls)|intros entries].
  apply (preserves_for_each same_syscalls). intros entry.
  unfold add_entry, path_is_dir, path_is_file. pres.
Qed.

Lemma load_children_same_screens node path :
  preserves same_screens (load_children node path).
Proof.
  unfold load_children, remove_children, path_is_dir, path_iterdir.
  apply (preserves_bind same_screens); [pres|intros _].
  destruct path as [p|]; [|pres].
  apply (preserves_bind same_screens); [pres|intros d]. destruct (negb d); [pres|].
  apply (preserves_try_except same_screens); [|intros e; pres].
  apply (preserves_bind same_screens); [pres|intros listing].
  apply (preserves_bind same_screens);
    [apply (sorted_preserves same_screens)|intros entries].
  apply (preserves_for_each same_screens). intros entry.
  unfold add_entry, path_is_dir, path_is_file. pres.
Qed.

Lemma load_children_same_cursor node path :
  preserves same_cursor (load_children node path).
Proof.
  unfold load_children, remove_children, path_is_dir, path_iterdir.
  apply (preserves_bind same_cursor); [pres|intros _].
  destruct path as [p|]; [|pres].
  apply (preserves_bind same_cursor); [pres|intros d]. destruct (negb d); [pres|].
  apply (preserves_try_except same_cursor); [|intros e; pres].
  apply (preserves_bind same_cursor); [pres|intros listing].
  apply (preserves_bind same_cursor);
    [apply (sorted_preserves same_cursor)|intros entries].
  apply (preserves_for_each same_cursor). intros entry.
  unfold add_entry, path_is_dir, path_is_file. pres.
Qed.

Lemma fs_remove_same_cursor c f : preserves same_cursor (fs_remove c f).
Proof. intros s. unfold fs_remove. by destruct (f (fs s)). Qed.

Lemma launch_same_cursor c : preserves same_cursor (launch c).
Proof. intros s. unfold launch. by destruct (os_launch s c). Qed.

Lemma fs_remove_same_screens c f : preserves same_screens (fs_remove c f).
Proof. intros s. unfold fs_remove. by destruct (f (fs s)). Qed.

Lemma launch_same_screens c : preserves same_screens (launch c).
Proof. intros s. unfold launch. by destruct (os_launch s c). Qed.

Lemma fs_remove_grows c f : preserves grows (fs_remove c f).
Proof.
  intros s. unfold fs_remove. by destruct (f (fs s)); apply grows_nodes_eq.
Qed.

Lemma launch_grows c : preserves grows (launch c).
Proof.
  intros s. unfold launch. by destruct (os_launch s c); apply grows_nodes_eq.
Qed.

Lemma launch_same_fs c : preserves same_fs (launch c).
Proof. intros s. unfold launch. by destruct (os_launch s c). Qed.

Ltac handler_leaf :=
  first [ apply load_children_grows | apply load_children_same_fs
        | apply load_children_same_syscalls | apply load_children_same_screens
        | apply load_children_same_cursor
        | apply fs_remove_grows | apply fs_remove_same_screens
        | apply fs_remove_same_cursor
        | apply launch_grows | apply launch_same_fs | apply launch_same_screens
        | apply launch_same_cursor ].

Ltac handler_pres :=
  unfold action_refresh, refresh_root, action_open_selected, open_file,
    action_delete_selected, on_tree_node_expanded, on_tree_node_double_clicked,
    handle_delete_confirm, refresh_parent, report_delete_error,
    expand, collapse, set_expanded, path_is_dir, path_is_file, path_exists,
    path_unlink, shutil_rmtree;
  repeat (first [handler_leaf | pres_step | pres_leaf]).

Lemma dispatch_grows e : preserves grows (dispatch e).
Proof.
  destruct e as [k|c|n|n|b]; unfold dispatch, on_button_pressed; handler_pres.
Qed.

(** X1: along every run, handled to the end or cut short by an exception,
    the store of nodes only grows, and no node that exists changes its label,
    its path, its directory attribute, its expandability or its parent: the
    handlers change children lists and expansion flags only. *)
Theorem run_events_grows (es : list event) (s : App) :
  let s' := (run_events es s).2 in
  length (nodes s) ≤ length (nodes s') ∧
  ∀ j, j < length (nodes s) →
       label (nodes s' !!! j) = label (nodes s !!! j) ∧
       data (nodes s' !!! j) = data (nodes s !!! j) ∧
       data_is_dir (nodes s' !!! j) = data_is_dir (nodes s !!! j) ∧
       allow_expand (nodes s' !!! j) = allow_expand (nodes s !!! j) ∧
       parent (nodes s' !!! j) = parent (nodes s !!! j).
Proof.
  intros s'.
  assert (Hg : grows s s').
  { apply (preserves_for_each grows). apply dispatch_grows. }
  destruct Hg as [Hlen Hid]. split; [done|].
  intros j Hj. specialize (Hid j Hj). unfold identity in Hid.
  by injection Hid as -> -> -> -> ->.
Qed.

(** X2: the filesystem is changed by one event only, the button "delete"
    of the dialog; and apart from that button and the key ctrl+o, no event
    makes a call that leaves the process. *)
Theorem only_confirmation_removes (e : event) (s : App) :
  e ≠ ButtonPressed (py "delete") →
  fs (dispatch e s).2 = fs s ∧
  (e ≠ Key (py "ctrl+o") → syscalls (dispatch e s).2 = syscalls s).
Proof.
  intros Hne. split.
  - revert s. change (preserves same_fs (dispatch e)).
    destruct e as [k|c|n|n|b]; unfold dispatch, on_button_pressed.
    + handler_pres.
    + handler_pres.
    + handler_pres.
    + handler_pres.
    + rewrite bool_decide_eq_false_2 by congruence.
      unfold handle_delete_confirm. cbn [negb]. pres.
  - intros Hopen. revert s.
    change (preserves same_syscalls (dispatch e)).
    destruct e as [k|c|n|n|b]; unfold dispatch, on_button_pressed.
    + case_bool_decide; [handler_pres|].
      rewrite bool_decide_eq_false_2 by congruence. handler_pres.
    + handler_pres.
    + handler_pres.
    + handler_pres.
    + rewrite bool_decide_eq_false_2 by congruence.
      unfold handle_delete_confirm. cbn [negb]. pres.
Qed.






End PreservesHandlers.

(** ** The loader, further *)

Section LoaderFurther.
Context {lower : StrLower}.

(** What every object of a load looks like. *)
Lemma load_view_shape f node path :
  Forall (λ c, parent c = Some node ∧ is_expanded c = false ∧ children c = [] ∧
               (allow_expand c = true ↔ data_is_dir c = Some true) ∧
               (data_is_dir c = Some true →
                ∃ x, data c = Some x ∧ label c = py "📁 " ++ name x ∧
                     fs_is_dir f x = Return true) ∧
               (data_is_dir c ≠ Some true → data_is_dir c = None))
         (load_view f node path).
Proof.
  assert (Hph : ∀ e, Forall (λ c, parent c = Some node ∧ is_expanded c = false ∧
               children c = [] ∧
               (allow_expand c = true ↔ data_is_dir c = Some true) ∧
               (data_is_dir c = Some true →
                ∃ x, data c = Some x ∧ label c = py "📁 " ++ name x ∧
                     fs_is_dir f x = Return true) ∧
               (data_is_dir c ≠ Some true → data_is_dir c = None))
               [placeholder node e]).
  { intros e. constructor; [|constructor]. by split_and!. }
  destruct path as [p|]; simpl; [|constructor].
  destruct (fs_is_dir f p) as [[]|]; [|constructor..].
  unfold loaded_children.
  destruct (fs_iterdir f p) as [listing|e]; [|apply Hph].
  destruct (out_map _ listing) as [ks|e] eqn:Hks; [|apply Hph].
  apply out_map_entry_key_Forall in Hks as [HF _].
  apply Forall_fmap.
  eapply Forall_impl;
    [eapply Permutation_Forall; [symmetry; apply sort_keyed_perm|exact HF]|].
  intros [[[] k] x] [Hd _]; simpl in *; unfold child_of_key; simpl.
  - by split_and!.
  - split_and!; try done. intros _. by exists x.
Qed.

(** X3: the children a load leaves are new objects, each listed once; every
    child points back to the loaded node, is collapsed and has no children
    of its own; a child can be expanded exactly when it carries the
    directory attribute, and then its path is a directory of the filesystem.
    Nothing is said of the labels. *)
Theorem load_children_children_wf (s : App) (node : nat) (path : option Path) :
  node < length (nodes s) →
  let r := load_children node path s in
  NoDup (children (nodes r.2 !!! node)) ∧
  Forall (λ c, length (nodes s) ≤ c < length (nodes r.2))
         (children (nodes r.2 !!! node)) ∧
  Forall (λ c, parent c = Some node ∧ is_expanded c = false ∧ children c = [] ∧
               (allow_expand c = true ↔ data_is_dir c = Some true) ∧
               (data_is_dir c = Some true →
                ∃ x, data c = Some x ∧ fs_is_dir (fs s) x = Return true) ∧
               (data_is_dir c ≠ Some true → data_is_dir c = None))
         (child_nodes r.2 node).
Proof.
  intros Hlt r. subst r. rewrite load_children_state by done.
  rewrite child_nodes_attach_detach by done.
  assert (Hch : children (nodes (attach node (load_view (fs s) node path)
                                        (detach node s)) !!! node)
                = seq (length (nodes s)) (length (load_view (fs s) node path))).
  { simpl. rewrite attach_nodes_lookup_eq by (by rewrite length_alter).
    rewrite list_lookup_total_alter_eq by done. simpl. by rewrite length_alter. }
  rewrite Hch. split_and!.
  - apply NoDup_seq.
  - apply Forall_forall. intros c Hc%elem_of_seq.
    rewrite length_nodes_attach, length_nodes_detach. lia.
  - eapply Forall_impl; [apply load_view_shape|].
    intros c (Hp & He & Hc & Ha & Hd & Hn). split_and!; try done.
    intros Ht. destruct (Hd Ht) as (x & Hx & _ & Hdir). by exists x.
Qed.

(** X4: a load, whatever its outcome, changes children lists and nothing
    else.  The filesystem, the calls made, the cursor, the open dialogs, the
    notifications, the pending messages and the output are as before; every
    node keeps its label, its path, its directory attribute, its
    expandability, its parent and its expansion flag.  (Of the children
    lists, that of the loaded node is replaced; those of the other nodes are
    not spoken of.) *)
Theorem load_children_frame (s : App) (node : nat) (path : option Path) :
  node < length (nodes s) →
  let r := load_children node path s in
  fs r.2 = fs s ∧ syscalls r.2 = syscalls s ∧ cursor_node r.2 = cursor_node s ∧
  screens r.2 = screens s ∧ notifications r.2 = notifications s ∧
  messages r.2 = messages s ∧ stdout r.2 = stdout s ∧
  ∀ j, j < length (nodes s) →
       label (nodes r.2 !!! j) = label (nodes s !!! j) ∧
       data (nodes r.2 !!! j) = data (nodes s !!! j) ∧
       data_is_dir (nodes r.2 !!! j) = data_is_dir (nodes s !!! j) ∧
       allow_expand (nodes r.2 !!! j) = allow_expand (nodes s !!! j) ∧
       parent (nodes r.2 !!! j) = parent (nodes s !!! j) ∧
       is_expanded (nodes r.2 !!! j) = is_expanded (nodes s !!! j).
Proof.
  intros Hlt r. subst r. rewrite load_children_state by done.
  split_and!; try done.
  intros j Hj. simpl. destruct (decide (j = node)) as [->|Hne].
  - rewrite attach_nodes_lookup_eq by (by rewrite length_alter).
    by rewrite list_lookup_total_alter_eq.
  - rewrite attach_nodes_lookup_ne by (by rewrite ?length_alter).
    by rewrite list_lookup_total_alter_ne.
Qed.

(** X5: a load on a node without path, or on a path that is missing or is
    not a directory, returns normally and leaves the node without children,
    whatever children it had. *)
Theorem load_children_not_directory (s : App) (node : nat) (path : option Path) :
  node < length (nodes s) →
  (∀ p, path = Some p → fs_is_dir (fs s) p = Return false) →
  let r := load_children node path s in
  r.1 = Return () ∧ children (nodes r.2 !!! node) = [] ∧
  length (nodes r.2) = length (nodes s).
Proof.
  intros Hlt Hnd r. subst r.
  rewrite load_children_outcome, load_children_state by done.
  assert (Hv : load_view (fs s) node path = []).
  { destruct path as [p|]; [|done]. simpl. by rewrite (Hnd p eq_refl). }
  rewrite Hv, attach_nil. split_and!.
  - destruct path as [p|]; [|done]. by rewrite (Hnd p eq_refl).
  - simpl. by rewrite list_lookup_total_alter_eq.
  - apply length_nodes_detach.
Qed.

Lemma out_map_raise {A B} (g : A → outcome B) l1 x l2 e :
  Forall (λ y, ∃ b, g y = Return b) l1 → g x = Raise e →
  out_map g (l1 ++ x :: l2) = Raise e.
Proof.
  intros HF Hx. induction HF as [|y l [b Hy] _ IH]; simpl.
  - by rewrite Hx.
  - by rewrite Hy, IH.
Qed.

(** X6: the type check of the sort key is not guarded entry by entry.
    When the listing returns and the type check of an entry raises, the
    whole load ends in the single placeholder for that exception (no entry
    is shown, the entry is not skipped); the first entry that raises, in
    listing order, decides. *)
Theorem load_children_entry_stat_error
    (s : App) (node : nat) (p x : Path) (l1 l2 : list Path) (e : exn) :
  node < length (nodes s) →
  fs_is_dir (fs s) p = Return true →
  fs_iterdir (fs s) p = Return (l1 ++ x :: l2) →
  Forall (λ y, ∃ d, fs_is_dir (fs s) y = Return d) l1 →
  fs_is_dir (fs s) x = Raise e →
  let r := load_children node (Some p) s in
  r.1 = Return () ∧
  child_nodes r.2 node
    = [MkNode (if bool_decide (e_class e = PermissionError) then py "[权限不足]"
               else py "[加载错误: " ++ take 20 (e_str e) ++ py "]")
              None None false false [] (Some node)].
Proof.
  intros Hlt Hdir Hlist Hl1 Hx r. subst r.
  rewrite load_children_outcome, load_children_state by done.
  rewrite child_nodes_attach_detach by done. simpl. rewrite Hdir.
  split; [done|]. unfold loaded_children. rewrite Hlist.
  rewrite (out_map_raise _ l1 x l2 e); [done| |].
  - eapply Forall_impl; [exact Hl1|]. intros y [d Hd].
    unfold fs_entry_key. rewrite Hd. by eexists.
  - unfold fs_entry_key. by rewrite Hx.
Qed.

End LoaderFurther.

(** ** The handlers, further *)

Section HandlersFurther.
Context {lower : StrLower}.

Lemma open_file_eval file_path s :
  open_file file_path s =
    match os_resolve s file_path with
    | Raise e => (Return false, with_stdout (stdout s ++ [py "打开文件错误：" ++ e_str e]) s)
    | Return resolved =>
      let calls := opener_calls (platform s) resolved in
      let s1 := with_syscalls (syscalls s ++ calls) s in
      match omap (os_launch s) calls with
      | [] => (Return true, s1)
      | e :: _ =>
        (Return false, with_stdout (stdout s ++ [py "打开文件错误：" ++ e_str e]) s1)
      end
    end.
Proof.
  unfold open_file, try_except. rewrite bind_eval. unfold path_resolve.
  destruct (os_resolve s file_path) as [resolved|e]; [|done].
  rewrite bind_eval. unfold gets. rewrite bind_eval. unfold opener_calls.
  assert (Hid : with_syscalls (syscalls s ++ []) s = s)
    by (rewrite app_nil_r; by destruct s).
  repeat case_bool_decide; simpl; unfold launch;
    try (by destruct (os_launch s _)).
  by rewrite Hid.
Qed.

Lemma action_open_selected_eval s :
  action_open_selected s =
    match cursor_node s with
    | None => (Return (), notified (Notify (py "未选中任何文件") (py "提示") 20) s)
    | Some n =>
      match data (nodes s !!! n) with
      | None => (Return (), notified (Notify (py "请先选中一个文件") (py "提示") 20) s)
      | Some p =>
        match fs_is_file (fs s) p with
        | Raise e => (Raise e, s)
        | Return false =>
          (Return (), notified (Notify (py "请先选中一个文件") (py "提示") 20) s)
        | Return true =>
          match open_file p s with
          | (Return true, s1) =>
            (Return (), notified (Notify (py "已打开：" ++ name p) (py "成功") 20) s1)
          | (Return false, s1) =>
            (Return (), notified (Notify (py "打开失败：" ++ name p) (py "错误") 30) s1)
          | (Raise e, s1) => (Raise e, s1)
          end
        end
      end
    end.
Proof.
  unfold action_open_selected. rewrite bind_eval. unfold gets at 1.
  destruct (cursor_node s) as [n|]; [|done].
  rewrite bind_eval. unfold get_node at 1, gets at 1.
  destruct (data (nodes s !!! n)) as [p|]; [|done].
  rewrite bind_eval. unfold path_is_file, fs_read.
  destruct (fs_is_file (fs s) p) as [[]|e]; [|done..].
  rewrite bind_eval. by destruct (open_file p s) as [[[]|e] s1].
Qed.

Lemma action_delete_selected_eval s :
  action_delete_selected s =
    match cursor_node s with
    | None => (Return (), notified (Notify (py "未选中任何文件/目录") (py "提示") 20) s)
    | Some n =>
      match data (nodes s !!! n) with
      | None => (Return (), notified (Notify (py "选中项无效或不存在") (py "提示") 20) s)
      | Some p =>
        match fs_exists (fs s) p with
        | Raise e => (Raise e, s)
        | Return false =>
          (Return (), notified (Notify (py "选中项无效或不存在") (py "提示") 20) s)
        | Return true => (Return (), with_screens (p :: screens s) s)
        end
      end
    end.
Proof.
  unfold action_delete_selected. rewrite bind_eval. unfold gets at 1.
  destruct (cursor_node s) as [n|]; [|done].
  rewrite bind_eval. unfold get_node at 1, gets at 1.
  destruct (data (nodes s !!! n)) as [p|]; [|done].
  rewrite bind_eval. unfold path_exists, fs_read.
  by destruct (fs_exists (fs s) p) as [[]|e].
Qed.

(** X7: with no node under the cursor, or a node without path, or a path
    that is not a file (a directory, a vanished path), ctrl+o opens nothing:
    no call leaves the process, nothing is printed, tree and filesystem are
    untouched, and one notification of title "提示" asks for a file. *)
Theorem action_open_selected_not_file (s : App) :
  match cursor_node s with
  | None => True
  | Some n =>
    match data (nodes s !!! n) with
    | None => True
    | Some p => fs_is_file (fs s) p = Return false
    end
  end →
  let r := action_open_selected s in
  r.1 = Return () ∧
  syscalls r.2 = syscalls s ∧ stdout r.2 = stdout s ∧
  fs r.2 = fs s ∧ nodes r.2 = nodes s ∧
  notifications r.2
    = notifications s ++
      [Notify (match cursor_node s with
               | Some _ => py "请先选中一个文件"
               | None => py "未选中任何文件"
               end) (py "提示") 20].
Proof.
  intros H r. subst r. rewrite action_open_selected_eval.
  destruct (cursor_node s) as [n|]; [|by split_and!].
  destruct (data (nodes s !!! n)) as [p|]; [|by split_and!].
  rewrite H. by split_and!.
Qed.

(** X8: on a file, ctrl+o always returns with exactly one notification.
    When the path cannot be resolved nothing is launched and the failure is
    notified; otherwise the opener of the platform is launched on the
    resolved path, and the success is notified exactly when no launch
    raised.  On a platform without opener nothing is launched and the
    success is notified all the same.  The notification names the file by
    the path of the node, not by the resolved path. *)
Theorem action_open_selected_file (s : App) (n : nat) (p : Path) :
  cursor_node s = Some n →
  data (nodes s !!! n) = Some p →
  fs_is_file (fs s) p = Return true →
  let r := action_open_selected s in
  let failure := Notify (py "打开失败：" ++ name p) (py "错误") 30 in
  let success := Notify (py "已打开：" ++ name p) (py "成功") 20 in
  r.1 = Return () ∧ fs r.2 = fs s ∧ nodes r.2 = nodes s ∧
  match os_resolve s p with
  | Raise e =>
    syscalls r.2 = syscalls s ∧ notifications r.2 = notifications s ++ [failure]
  | Return resolved =>
    syscalls r.2 = syscalls s ++ opener_calls (platform s) resolved ∧
    notifications r.2
      = notifications s ++
        [match omap (os_launch s) (opener_calls (platform s) resolved) with
         | [] => success
         | _ => failure
         end]
  end.
Proof.
  intros Hcur Hdata Hfile r failure success. subst r.
  rewrite action_open_selected_eval, Hcur, Hdata, Hfile, open_file_eval.
  destruct (os_resolve s p) as [resolved|e]; [|by split_and!].
  cbv zeta. by destruct (omap _ _).
Qed.

(** X9: ctrl+d never removes anything and never changes the tree.  It opens
    the dialog exactly when the node under the cursor carries a path that
    exists, and the dialog then displays that path; with no node it notifies
    that nothing is selected, and with a node without path or with a path
    that is gone it notifies that the selection is invalid. *)
Theorem action_delete_selected_request (s : App) :
  let r := action_delete_selected s in
  fs r.2 = fs s ∧ nodes r.2 = nodes s ∧ syscalls r.2 = syscalls s ∧
  match cursor_node s with
  | None =>
    r.1 = Return () ∧ screens r.2 = screens s ∧
    notifications r.2
      = notifications s ++ [Notify (py "未选中任何文件/目录") (py "提示") 20]
  | Some n =>
    match data (nodes s !!! n) with
    | None =>
      r.1 = Return () ∧ screens r.2 = screens s ∧
      notifications r.2
        = notifications s ++ [Notify (py "选中项无效或不存在") (py "提示") 20]
    | Some p =>
      match fs_exists (fs s) p with
      | Return true =>
        r.1 = Return () ∧ screens r.2 = p :: screens s ∧
        notifications r.2 = notifications s
      | Return false =>
        r.1 = Return () ∧ screens r.2 = screens s ∧
        notifications r.2
          = notifications s ++ [Notify (py "选中项无效或不存在") (py "提示") 20]
      | Raise e =>
        r.1 = Raise e ∧ screens r.2 = screens s ∧
        notifications r.2 = notifications s
      end
    end
  end.
Proof.
  intros r. subst r. rewrite action_delete_selected_eval.
  destruct (cursor_node s) as [n|]; [|by split_and!].
  destruct (data (nodes s !!! n)) as [p|]; [|by split_and!].
  by destruct (fs_exists (fs s) p) as [[]|e].
Qed.

(** X10: a double click on a node that is not a directory node changes
    nothing (it never opens a file).  On a directory node it flips the
    expansion flag, posts the matching message and keeps the children; a
    second double click brings the tree back to what it was. *)
Theorem on_tree_node_double_clicked_toggles (s : App) (n : nat) :
  let r1 := on_tree_node_double_clicked n s in
  let r2 := on_tree_node_double_clicked n r1.2 in
  (is_dir_node (nodes s !!! n) = false → r1 = (Return (), s)) ∧
  (is_dir_node (nodes s !!! n) = true →
   r1.1 = Return () ∧
   is_expanded (nodes r1.2 !!! n) = negb (is_expanded (nodes s !!! n)) ∧
   children (nodes r1.2 !!! n) = children (nodes s !!! n) ∧
   (∀ j, j ≠ n → nodes r1.2 !!! j = nodes s !!! j) ∧
   messages r1.2
     = messages s ++ [if is_expanded (nodes s !!! n) then NodeCollapsed n
                      else NodeExpanded n] ∧
   fs r1.2 = fs s ∧ syscalls r1.2 = syscalls s ∧
   nodes r2.2 = nodes s).
Proof.
  intros r1 r2. split.
  - intros Hnd. subst r1. unfold on_tree_node_double_clicked.
    rewrite bind_eval. unfold get_node, gets. by rewrite Hnd.
  - intros Hd. pose proof (is_dir_node_valid _ _ Hd) as Hlt.
    set (b := is_expanded (nodes s !!! n)).
    assert (Hr1 : r1 = (Return (),
        with_messages (messages s ++ [if b then NodeCollapsed n else NodeExpanded n])
          (with_nodes (alter (with_expanded (negb b)) n (nodes s)) s))).
    { subst r1 b. unfold on_tree_node_double_clicked.
      rewrite bind_eval. unfold get_node, gets. rewrite Hd.
      by destruct (is_expanded (nodes s !!! n)). }
    assert (Hn1 : nodes r1.2 !!! n = with_expanded (negb b) (nodes s !!! n)).
    { rewrite Hr1. simpl. by rewrite list_lookup_total_alter_eq. }
    split_and!.
    + by rewrite Hr1.
    + by rewrite Hn1.
    + by rewrite Hn1.
    + intros j Hj. rewrite Hr1. simpl. by apply list_lookup_total_alter_ne.
    + by rewrite Hr1.
    + by rewrite Hr1.
    + by rewrite Hr1.
    + subst r2. unfold on_tree_node_double_clicked.
      rewrite bind_eval. unfold get_node, gets. rewrite Hn1.
      assert (Hd1 : is_dir_node (with_expanded (negb b) (nodes s !!! n)) = true)
        by exact Hd.
      rewrite Hd1. cbn [is_expanded with_expanded].
      assert (Hback : alter (with_expanded b) n (nodes r1.2) = nodes s).
      { rewrite Hr1. simpl. rewrite list_alter_alter_eq.
        apply list_eq. intros j. rewrite list_lookup_alter.
        case_decide as Hj; [subst j|done].
        destruct (nodes s !! n) as [x|] eqn:Hx; [|done]. simpl. f_equal.
        subst b. rewrite (list_lookup_total_correct _ _ _ Hx).
        destruct x. done. }
      destruct b; simpl; exact Hback.
Qed.

(** X11: the event of an expansion loads lazily.  On a node that is not a
    directory node (a file, a placeholder, the tree root) it changes nothing.
    On a directory node whose type check returns, it replaces the children
    by those of one load and changes neither the expansion flag nor the
    pending messages. *)
Theorem on_tree_node_expanded_loads (s : App) (n : nat) :
  let r := on_tree_node_expanded n s in
  (is_dir_node (nodes s !!! n) = false → r = (Return (), s)) ∧
  (is_dir_node (nodes s !!! n) = true →
   stat_returns (fs s) (data (nodes s !!! n)) →
   r.1 = Return () ∧
   child_nodes r.2 n = load_view (fs s) n (data (nodes s !!! n)) ∧
   is_expanded (nodes r.2 !!! n) = is_expanded (nodes s !!! n) ∧
   messages r.2 = messages s).
Proof.
  intros r. split.
  - intros Hnd. subst r. unfold on_tree_node_expanded.
    rewrite bind_eval. unfold get_node, gets. by rewrite Hnd.
  - intros Hd Hstat. pose proof (is_dir_node_valid _ _ Hd) as Hlt.
    assert (Hr : r = (Return (), reloaded n s)).
    { subst r. unfold on_tree_node_expanded.
      rewrite bind_eval. unfold get_node, gets. rewrite Hd.
      by apply reload_eval. }
    rewrite Hr. split_and!; [done|by apply child_nodes_reloaded| |done].
    cbn [snd].
    by destruct (clear_children_eq_fields _ _ (reloaded_clear_children n s n Hlt))
      as (_ & _ & ->).
Qed.

Lemma action_refresh_dir_eval s n :
  cursor_node s = Some n →
  is_dir_node (nodes s !!! n) = true →
  stat_returns (fs s) (data (nodes s !!! n)) →
  action_refresh s =
    (Return (), notified (Notify (py "已刷新目录") (py "刷新成功") 15)
                         (expanded n (reloaded n s))).
Proof.
  intros Hcur Hdir Hstat. pose proof (is_dir_node_valid _ _ Hdir) as Hlt.
  unfold action_refresh. rewrite bind_eval. unfold gets at 1.
  rewrite Hcur, bind_eval. unfold get_node at 1, gets at 1. rewrite Hdir.
  rewrite bind_eval, reload_eval by done. by rewrite bind_eval, expand_eval.
Qed.

(** X12: a refresh of a directory node posts the expansion message of that
    node, and the handler of this message loads the node once more.  This
    second load changes nothing one can see: the children after it are the
    same objects in the same order, and the node stays expanded. *)
Theorem refresh_then_expanded_event (s : App) (n : nat) :
  cursor_node s = Some n →
  is_dir_node (nodes s !!! n) = true →
  stat_returns (fs s) (data (nodes s !!! n)) →
  let s1 := (action_refresh s).2 in
  let r2 := on_tree_node_expanded n s1 in
  messages s1 = messages s ++ [NodeExpanded n] ∧
  r2.1 = Return () ∧
  child_nodes r2.2 n = child_nodes s1 n ∧
  is_expanded (nodes r2.2 !!! n) = true ∧
  fs r2.2 = fs s.
Proof.
  intros Hcur Hdir Hstat s1 r2.
  pose proof (is_dir_node_valid _ _ Hdir) as Hlt.
  assert (Hs1 : s1 = notified (Notify (py "已刷新目录") (py "刷新成功") 15)
                              (expanded n (reloaded n s))).
  { subst s1. by rewrite (action_refresh_dir_eval s n). }
  assert (Hlt1 : n < length (nodes s1)).
  { rewrite Hs1. simpl. rewrite length_alter.
    apply Nat.lt_le_trans with (length (nodes s)); [done|].
    apply (length_nodes_reloaded n s). }
  assert (Hn1 : nodes s1 !!! n = with_expanded true (nodes (reloaded n s) !!! n)).
  { rewrite Hs1. simpl. rewrite list_lookup_total_alter_eq; [done|].
    rewrite length_attach_nodes, length_alter. lia. }
  destruct (clear_children_eq_fields _ _ (reloaded_clear_children n s n Hlt))
    as (Hdata & Htag & _).
  assert (Hdata1 : data (nodes s1 !!! n) = data (nodes s !!! n))
    by (rewrite Hn1; exact Hdata).
  assert (Hdir1 : is_dir_node (nodes s1 !!! n) = true).
  { rewrite Hn1. unfold is_dir_node in *.
    cbn [data data_is_dir with_expanded]. by rewrite Hdata, Htag. }
  assert (Hfs1 : fs s1 = fs s) by (by rewrite Hs1).
  assert (Hr2 : r2 = (Return (), reloaded n s1)).
  { subst r2. unfold on_tree_node_expanded.
    rewrite bind_eval. unfold get_node, gets. rewrite Hdir1.
    apply reload_eval; [done|]. by rewrite Hdata1, Hfs1. }
  rewrite Hr2. cbn [fst snd]. split_and!.
  - by rewrite Hs1.
  - done.
  - rewrite child_nodes_reloaded by done. rewrite Hdata1, Hfs1.
    rewrite Hs1.
    change (child_nodes (notified _ ?x) n) with (child_nodes x n).
    by rewrite child_nodes_expanded_reloaded.
  - destruct (clear_children_eq_fields _ _ (reloaded_clear_children n s1 n Hlt1))
      as (_ & _ & ->).
    by rewrite Hn1.
  - done.
Qed.

Lemma report_delete_error_eval e s :
  report_delete_error e s =
    (Return (),
     with_stdout (stdout s ++ delete_error_output e)
                 (notified (delete_error_notification e) s)).
Proof.
  unfold report_delete_error, delete_error_output, delete_error_notification.
  destruct (is_permission_error e), (is_file_not_found e); simpl;
    rewrite ?app_nil_r; by destruct s.
Qed.

End HandlersFurther.

(** ** Deletion, further *)

Section DeletionFurther.
Context {lower : StrLower}.

(** X13: when the host refuses the removal of a file, the failure is
    reported and the tree stays as it was: one [unlink] was attempted, the
    filesystem and every node are unchanged, and the notification is the
    permission message for [PermissionError], the not-found message for
    [FileNotFoundError], and otherwise the message of the exception cut to
    30 characters, with the full message printed. *)
Theorem handle_delete_confirm_unlink_fails (s : App) (n : nat) (p : Path) (e : exn) :
  cursor_node s = Some n →
  data (nodes s !!! n) = Some p →
  fs_is_file (fs s) p = Return true →
  fs_unlink (fs s) p = Raise e →
  let r := handle_delete_confirm true s in
  r.1 = Return () ∧
  syscalls r.2 = syscalls s ++ [Unlink p] ∧
  fs r.2 = fs s ∧ nodes r.2 = nodes s ∧ messages r.2 = messages s ∧
  notifications r.2 = notifications s ++ [delete_error_notification e] ∧
  stdout r.2 = stdout s ++ delete_error_output e ∧
  (e_class e = PermissionError →
   delete_error_notification e = Notify (py "权限不足，无法删除") (py "错误") 30) ∧
  (e_class e = FileNotFoundError →
   delete_error_notification e = Notify (py "文件/目录不存在") (py "错误") 30) ∧
  (e_class e ≠ PermissionError → e_class e ≠ FileNotFoundError →
   delete_error_notification e
     = Notify (py "删除失败：" ++ take 30 (e_str e)) (py "错误") 30 ∧
   delete_error_output e = [py "删除错误详情：" ++ e_str e]).
Proof.
  intros Hcur Hdata Hfile Hunlink r.
  assert (Hr : r = report_delete_error e (with_syscalls (syscalls s ++ [Unlink p]) s)).
  { subst r. unfold handle_delete_confirm. cbn [negb].
    rewrite bind_eval. unfold gets at 1. rewrite Hcur.
    rewrite bind_eval. unfold get_node at 1, gets at 1. rewrite Hdata.
    unfold try_except. rewrite bind_eval.
    unfold path_is_file at 1, fs_read at 1. rewrite Hfile.
    rewrite bind_eval. unfold path_unlink, fs_remove. by rewrite Hunlink. }
  rewrite Hr, report_delete_error_eval.
  unfold delete_error_notification, delete_error_output,
    is_permission_error, is_file_not_found.
  split_and!; try done.
  - intros Hc. by rewrite bool_decide_eq_true_2.
  - intros Hc. rewrite bool_decide_eq_false_2 by (rewrite Hc; done).
    by rewrite bool_decide_eq_true_2.
  - intros H1 H2. by rewrite !bool_decide_eq_false_2.
Qed.

(** X14: a confirmation on a node without path (the tree root, a
    placeholder) removes nothing and leaves the tree alone: the
    [AttributeError] of the type test is caught inside the [try], reported as
    a failed deletion with its message cut to 30 characters, and printed in
    full. *)
Theorem handle_delete_confirm_no_path (s : App) (n : nat) :
  cursor_node s = Some n →
  data (nodes s !!! n) = None →
  let r := handle_delete_confirm true s in
  let msg := py "'NoneType' object has no attribute 'is_file'" in
  r.1 = Return () ∧
  syscalls r.2 = syscalls s ∧ fs r.2 = fs s ∧ nodes r.2 = nodes s ∧
  notifications r.2
    = notifications s ++ [Notify (py "删除失败：" ++ take 30 msg) (py "错误") 30] ∧
  stdout r.2 = stdout s ++ [py "删除错误详情：" ++ msg].
Proof.
  intros Hcur Hdata r msg.
  assert (Hr : r = report_delete_error (Exn AttributeError msg) s).
  { subst r. unfold handle_delete_confirm. cbn [negb].
    rewrite bind_eval. unfold gets at 1. rewrite Hcur.
    rewrite bind_eval. unfold get_node at 1, gets at 1. by rewrite Hdata. }
  rewrite Hr, report_delete_error_eval. by split_and!.
Qed.

Lemma fs_rmtree_gone f p f' :
  fs_rmtree f p = Return f' → Forall (λ x, is_under p x = false) (f'.*1).
Proof.
  unfold fs_rmtree. destruct (fs_lookup f p) as [i|]; [|done].
  destruct (i_kind i); [done|]. destruct (omap _ f); [|done].
  intros [= <-]. apply Forall_fmap, Forall_forall.
  by intros [x j] [Hx _]%list_elem_of_filter.
Qed.

(** X15: a confirmed deletion of a directory that the host lets go makes
    exactly one call, the [rmtree] of the path of the node under the cursor;
    the parent is then reloaded from the filesystem as the removal left it
    and expanded, no child of the parent carries the removed path or a path
    below it, and the success is notified. *)
Theorem handle_delete_confirm_directory
    (s : App) (n par : nat) (p : Path) (f' : filesystem) :
  cursor_node s = Some n →
  data (nodes s !!! n) = Some p →
  fs_is_dir (fs s) p = Return true →
  fs_rmtree (fs s) p = Return f' →
  parent (nodes s !!! n) = Some par →
  has_dir_attr (nodes s !!! par) = true →
  stat_returns f' (data (nodes s !!! par)) →
  let r := handle_delete_confirm true s in
  r.1 = Return () ∧
  syscalls r.2 = syscalls s ++ [Rmtree p] ∧
  fs r.2 = f' ∧
  child_nodes r.2 par = load_view f' par (data (nodes s !!! par)) ∧
  is_expanded (nodes r.2 !!! par) = true ∧
  Forall (λ c, ∀ x, data c = Some x → is_under p x = false) (child_nodes r.2 par) ∧
  notifications r.2
    = notifications s ++ [Notify (py "已删除：" ++ name p) (py "删除成功") 20].
Proof.
  intros Hcur Hdata Hdir Hrm Hpar Hattr Hstat r.
  pose proof (has_dir_attr_valid _ _ Hattr) as Hlt.
  set (s1 := with_fs f' (with_syscalls (syscalls s ++ [Rmtree p]) s)).
  assert (Hr : r = (Return (),
                    notified (Notify (py "已删除：" ++ name p) (py "删除成功") 20)
                             (expanded par (reloaded par s1)))).
  { subst r. unfold handle_delete_confirm. cbn [negb].
    rewrite bind_eval. unfold gets at 1. rewrite Hcur.
    rewrite bind_eval. unfold get_node at 1, gets at 1. rewrite Hdata.
    unfold try_except. rewrite bind_eval.
    unfold path_is_file at 1, fs_read at 1. rewrite (fs_is_dir_is_file _ _ Hdir).
    rewrite !bind_eval. unfold path_is_dir at 1, fs_read at 1. rewrite Hdir.
    unfold shutil_rmtree, fs_remove. rewrite Hrm.
    fold s1. rewrite bind_eval, (refresh_parent_eval n par s1) by done.
    done. }
  assert (Hview : child_nodes r.2 par = load_view f' par (data (nodes s !!! par))).
  { rewrite Hr. cbn [snd].
    change (child_nodes (notified _ ?x) par) with (child_nodes x par).
    by rewrite child_nodes_expanded_reloaded. }
  rewrite Hr in *. cbn [fst snd] in *|-*.
  split_and!; try done.
  - apply is_expanded_expanded.
    eapply Nat.lt_le_trans; [exact Hlt|apply (length_nodes_reloaded par s1)].
  - rewrite Hview. apply Forall_forall. intros c Hc x Hx.
    destruct (load_view_data _ _ _ _ Hc) as [Hnone|(y & Hy & Hin)]; [congruence|].
    assert (y = x) as -> by congruence.
    pose proof (fs_rmtree_gone _ _ _ Hrm) as Hgone.
    rewrite Forall_forall in Hgone. by apply Hgone.
Qed.

(** X16: any button of the dialog other than "delete" cancels: the dialog
    is closed, the cancellation is notified, and nothing else changes. *)
Theorem on_button_pressed_cancel (s : App) (button_id : pystr) :
  button_id ≠ py "delete" →
  let r := on_button_pressed button_id s in
  r.1 = Return () ∧
  screens r.2 = tail (screens s) ∧
  fs r.2 = fs s ∧ nodes r.2 = nodes s ∧ syscalls r.2 = syscalls s ∧
  cursor_node r.2 = cursor_node s ∧
  notifications r.2 = notifications s ++ [Notify (py "已取消删除") (py "提示") 15].
Proof.
  intros Hne r. subst r. unfold on_button_pressed.
  rewrite bind_eval. unfold modify at 1.
  rewrite bool_decide_eq_false_2 by done.
  unfold handle_delete_confirm. cbn [negb]. by split_and!.
Qed.

(** The reload of the parent when the type check of its path raises. *)
Lemma refresh_parent_denied n par q e s :
  parent (nodes s !!! n) = Some par →
  has_dir_attr (nodes s !!! par) = true →
  data (nodes s !!! par) = Some q →
  fs_is_dir (fs s) q = Raise e →
  refresh_parent n s = (Raise e, detach par s).
Proof.
  intros Hpar Hattr Hq He. unfold refresh_parent.
  rewrite bind_eval. unfold get_node at 1, gets at 1. rewrite Hpar.
  rewrite bind_eval. unfold get_node at 1, gets at 1. rewrite Hattr, Hq.
  by rewrite bind_eval, (load_children_stat_escapes _ _ _ _ He).
Qed.

(** X24: the reload of the parent stands inside the [try] of the deletion.
    When a file was removed and the type check of the parent's path then
    raises, the exception does not leave the handler: it is reported as a
    failed deletion (the permission message for [PermissionError]) although
    the file is gone; the parent is left without children and with the
    expansion flag it had, and no message is posted. *)
Theorem handle_delete_confirm_parent_denied
    (s : App) (n par : nat) (p q : Path) (f' : filesystem) (e : exn) :
  cursor_node s = Some n →
  data (nodes s !!! n) = Some p →
  fs_is_file (fs s) p = Return true →
  fs_unlink (fs s) p = Return f' →
  parent (nodes s !!! n) = Some par →
  has_dir_attr (nodes s !!! par) = true →
  data (nodes s !!! par) = Some q →
  fs_is_dir f' q = Raise e →
  let r := handle_delete_confirm true s in
  r.1 = Return () ∧
  syscalls r.2 = syscalls s ++ [Unlink p] ∧
  fs r.2 = f' ∧ fs_lookup (fs r.2) p = None ∧
  children (nodes r.2 !!! par) = [] ∧
  is_expanded (nodes r.2 !!! par) = is_expanded (nodes s !!! par) ∧
  messages r.2 = messages s ∧
  notifications r.2 = notifications s ++ [delete_error_notification e] ∧
  stdout r.2 = stdout s ++ delete_error_output e.
Proof.
  intros Hcur Hdata Hfile Hunlink Hpar Hattr Hq He r.
  pose proof (has_dir_attr_valid _ _ Hattr) as Hlt.
  set (s1 := with_fs f' (with_syscalls (syscalls s ++ [Unlink p]) s)).
  assert (Hr : r = report_delete_error e (detach par s1)).
  { subst r. unfold handle_delete_confirm. cbn [negb].
    rewrite bind_eval. unfold gets at 1. rewrite Hcur.
    rewrite bind_eval. unfold get_node at 1, gets at 1. rewrite Hdata.
    unfold try_except. rewrite bind_eval.
    unfold path_is_file at 1, fs_read at 1. rewrite Hfile.
    rewrite bind_eval. unfold path_unlink, fs_remove. rewrite Hunlink.
    fold s1. by rewrite bind_eval, (refresh_parent_denied n par q e s1). }
  rewrite Hr, report_delete_error_eval. cbn [fst snd].
  split_and!; try done.
  - by eapply fs_unlink_gone.
  - simpl. by rewrite list_lookup_total_alter_eq.
  - simpl. by rewrite list_lookup_total_alter_eq.
Qed.

End DeletionFurther.

(** ** Start-up *)

Section Startup.
Context {lower : StrLower}.

Lemma get_root_paths_eval s :
  get_root_paths s = (fs_root_paths (cwd s) (fs s), s).
Proof.
  unfold get_root_paths, fs_root_paths. rewrite bind_eval. unfold gets at 1.
  destruct (endswith (anchor (cwd s)) (py ":\")); [|done].
  generalize (py "ABCDEFGHIJKLMNOPQRSTUVWXYZ"). intros ds.
  assert (H0 : (mret [] : M (list Path)) s = (Return [], s)) by done.
  revert H0. generalize (mret [] : M (list Path)) (Return [] : outcome (list Path)).
  induction ds as [|d ds IH]; intros acc a Hacc; simpl; [done|].
  apply IH. rewrite bind_eval, Hacc.
  destruct a as [roots|e]; [|done].
  rewrite bind_eval. unfold path_exists, fs_read.
  by destruct (fs_exists (fs s) _).
Qed.

Lemma fold_drives_filter f ds : ∀ roots,
  Forall (λ d, ∃ b, fs_exists f (MkPath ([d] ++ py ":\") []) = Return b) ds →
  fold_left
    (λ acc drive,
       match acc with
       | Raise e => Raise e
       | Return roots =>
         let p := MkPath ([drive] ++ py ":\") [] in
         match fs_exists f p with
         | Raise e => Raise e
         | Return e => Return (if (e : bool) then roots ++ [p] else roots)
         end
       end) ds (Return roots)
  = Return (roots ++ filter (λ p, path_present f p = true)
                            ((λ d, MkPath ([d] ++ py ":\") []) <$> ds)).
Proof.
  induction ds as [|d ds IH]; intros roots HF.
  - simpl. by rewrite app_nil_r.
  - inversion_clear HF as [|?? [b Hb] HF'].
    assert (Hp : path_present f (MkPath ([d] ++ py ":\") []) = b).
    { unfold path_present. rewrite Hb. by destruct b. }
    rewrite fmap_cons. cbn [fold_left]. rewrite Hb. rewrite IH by done.
    destruct b.
    + rewrite filter_cons_True by done. by rewrite <- app_assoc.
    + rewrite filter_cons_False; [done|]. by rewrite Hp.
Qed.

(** X17: [get_root_paths] leaves the state as it is.  Where the anchor of
    the working directory is not a drive it returns that anchor as the single
    root; where it is a drive, and the existence checks return, it returns
    the drive roots that exist, in alphabetical order, whatever drive the
    working directory is on. *)
Theorem get_root_paths_roots (s : App) :
  let r := get_root_paths s in
  r.2 = s ∧
  (endswith (anchor (cwd s)) (py ":\") = false →
   r.1 = Return [MkPath (anchor (cwd s)) []]) ∧
  (endswith (anchor (cwd s)) (py ":\") = true →
   Forall (λ p, ∃ b, fs_exists (fs s) p = Return b) drive_paths →
   r.1 = Return (filter (λ p, path_present (fs s) p = true) drive_paths)).
Proof.
  intros r. subst r. rewrite get_root_paths_eval. cbn [fst snd].
  split; [reflexivity|]. split.
  - intros Hposix. unfold fs_root_paths. rewrite Hposix. reflexivity.
  - intros Hwin HF. unfold fs_root_paths. rewrite Hwin.
    rewrite (fold_drives_filter _ _ []).
    + unfold drive_paths. rewrite app_nil_l. reflexivity.
    + apply Forall_forall. intros d Hd. rewrite Forall_forall in HF.
      apply HF. unfold drive_paths. apply list_elem_of_fmap. by exists d.
Qed.

Lemma attach_detach_lookup_ne t v s j :
  j < length (nodes s) → j ≠ t → nodes (attach t v (detach t s)) !!! j = nodes s !!! j.
Proof.
  intros Hj Hne. simpl.
  rewrite attach_nodes_lookup_ne by (by rewrite ?length_alter).
  by apply list_lookup_total_alter_ne.
Qed.

Lemma attach_detach_lookup_eq t v s :
  t < length (nodes s) →
  nodes (attach t v (detach t s)) !!! t
  = add_children (seq (length (nodes s)) (length v)) (clear_children (nodes s !!! t)).
Proof.
  intros Hlt. simpl.
  rewrite attach_nodes_lookup_eq by (by rewrite length_alter).
  by rewrite list_lookup_total_alter_eq, length_alter.
Qed.

(** One turn of the loop of [on_mount]. *)
Lemma mount_root_eval root s :
  0 < length (nodes s) →
  (∃ d, fs_is_dir (fs s) root = Return d) →
  let t := length (nodes s) in
  ∃ s1, mount_root root s = (Return (), s1) ∧
    fs s1 = fs s ∧ cursor_node s1 = cursor_node s ∧
    notifications s1 = notifications s ∧ syscalls s1 = syscalls s ∧
    t < length (nodes s1) ∧
    (∀ j, 0 < j < t → nodes s1 !!! j = nodes s !!! j) ∧
    nodes s1 !!! 0 = add_children [t] (nodes s !!! 0) ∧
    identity (nodes s1 !!! t)
      = (py "📁 " ++ path_str root, Some root, Some true, true, Some tree_root) ∧
    is_expanded (nodes s1 !!! t) = false ∧
    child_nodes s1 t = load_view (fs s) t (Some root) ∧
    Forall (λ c, t < c < length (nodes s1)) (children (nodes s1 !!! t)).
Proof.
  intros Hpos Hstat t.
  pose proof (eq_refl : t = length (nodes s)) as Ht.
  set (new := MkNode (py "📁 " ++ path_str root) (Some root) (Some true) true false []
                     (Some tree_root)).
  set (sb := attach tree_root [new] s).
  assert (Hb : (node ← node_add tree_root (py "📁 " ++ path_str root) (Some root) true;
                set_data_is_dir node true) s = (Return (), sb)).
  { rewrite bind_eval. simpl. unfold set_data_is_dir, update_node, modify.
    subst sb. unfold attach. simpl. f_equal.
    destruct s; unfold with_nodes; simpl in *. f_equal.
    unfold attach_nodes. simpl. unfold tree_root.
    rewrite list_alter_alter_ne by lia. f_equal.
    replace (length nodes0) with (length nodes0 + 0) at 1 by lia.
    by rewrite alter_app_r. }
  assert (Hlenb : length (nodes sb) = S t).
  { subst sb. rewrite length_nodes_attach. simpl. lia. }
  assert (Htb : nodes sb !!! t = new).
  { subst sb. simpl.
    replace t with (length (nodes s) + 0) by (subst t; lia).
    by rewrite (attach_nodes_lookup_new tree_root [new] (nodes s) 0)
      by (simpl; unfold tree_root; lia). }
  set (v := load_view (fs s) t (Some root)).
  exists (attach t v (detach t sb)).
  assert (Hm : mount_root root s = (Return (), attach t v (detach t sb))).
  { unfold mount_root. rewrite bind_eval in Hb |- *.
    unfold node_add at 1 in Hb. unfold node_add at 1.
    rewrite bind_eval.
    destruct (set_data_is_dir _ true _) as [o sb'] eqn:Hset.
    injection Hb as -> ->.
    rewrite (surjective_pairing (load_children _ _ _)).
    assert (Hlt : length (nodes s) < length (nodes sb)) by (rewrite Hlenb; lia).
    rewrite load_children_state, load_children_outcome by exact Hlt.
    destruct Hstat as [d Hd].
    change (fs sb) with (fs s). by rewrite Hd. }
  split; [exact Hm|].
  assert (Hlen1 : length (nodes (attach t v (detach t sb))) = S t + length v).
  { by rewrite length_nodes_attach, length_nodes_detach, Hlenb. }
  assert (Hb_ne : ∀ j, 0 < j < t → nodes sb !!! j = nodes s !!! j).
  { intros j Hj. subst sb. simpl.
    apply attach_nodes_lookup_ne; unfold tree_root; lia. }
  assert (Hb_0 : nodes sb !!! 0 = add_children [t] (nodes s !!! 0)).
  { subst sb. simpl. by apply attach_nodes_lookup_eq. }
  assert (Hfields : fs sb = fs s ∧ cursor_node sb = cursor_node s ∧
                    notifications sb = notifications s ∧ syscalls sb = syscalls s)
    by done.
  assert (Hltb : t < length (nodes sb)) by lia.
  clearbody sb v.
  assert (Ht1 : nodes (attach t v (detach t sb)) !!! t
                = add_children (seq (S t) (length v)) (clear_children new)).
  { rewrite attach_detach_lookup_eq by done. by rewrite Hlenb, Htb. }
  destruct Hfields as (? & ? & ? & ?).
  split_and!; try done.
  - lia.
  - intros j [Hj0 Hjt].
    rewrite attach_detach_lookup_ne by lia. apply Hb_ne. lia.
  - rewrite attach_detach_lookup_ne by lia. exact Hb_0.
  - by rewrite Ht1.
  - by rewrite Ht1.
  - apply child_nodes_attach_detach. lia.
  - rewrite Ht1, Hlen1. cbn [children add_children clear_children app].
    apply Forall_forall. intros c Hc%elem_of_seq. lia.
Qed.

Lemma mount_roots_eval roots : ∀ s,
  0 < length (nodes s) →
  Forall (λ root, ∃ d, fs_is_dir (fs s) root = Return d) roots →
  ∃ s' tops,
    for_each roots mount_root s = (Return (), s') ∧
    fs s' = fs s ∧ cursor_node s' = cursor_node s ∧
    notifications s' = notifications s ∧ syscalls s' = syscalls s ∧
    length (nodes s) ≤ length (nodes s') ∧
    (∀ j, 0 < j < length (nodes s) → nodes s' !!! j = nodes s !!! j) ∧
    nodes s' !!! 0 = add_children tops (nodes s !!! 0) ∧
    Forall2 (mounted s') tops roots.
Proof.
  induction roots as [|root roots IH]; intros s Hpos Hstat.
  - exists s, []. split_and!; try done. by rewrite add_children_nil.
  - inversion_clear Hstat as [|?? Hroot Hstat'].
    destruct (mount_root_eval root s Hpos Hroot)
      as (s1 & Hm & Hfs1 & Hcur1 & Hnot1 & Hsys1 & Hlen1 & Hne1 & H01 & Hid1
          & Hexp1 & Hview1 & Hch1).
    destruct (IH s1) as (s' & tops & Hrun & Hfs & Hcur & Hnot & Hsys & Hlen
                         & Hne & H0 & Htops).
    { lia. }
    { by rewrite Hfs1. }
    exists s', (length (nodes s) :: tops).
    assert (Ht : nodes s' !!! length (nodes s) = nodes s1 !!! length (nodes s))
      by (apply Hne; lia).
    split_and!.
    + change (for_each (root :: roots) mount_root)
        with (mount_root root ;; for_each roots mount_root).
      by rewrite bind_eval, Hm.
    + congruence.
    + congruence.
    + congruence.
    + congruence.
    + lia.
    + intros j Hj. rewrite Hne by lia. apply Hne1. lia.
    + rewrite H0, H01. apply add_children_app.
    + constructor; [|done]. unfold mounted. rewrite Ht. split_and!; [done..|].
      rewrite Hfs, Hfs1, <- Hview1. unfold child_nodes. rewrite Ht.
      apply Forall_fmap_ext_1. eapply Forall_impl; [exact Hch1|].
      intros c Hc. simpl in Hc |- *. apply Hne. lia.
Qed.

(** X18: start-up builds the tree from nothing.  When the root paths are
    found and their type checks return, [on_mount] returns normally and
    leaves, under a tree root that carries no path, one top-level node per
    root path, in the order of the root paths: each a collapsed directory
    node labelled with the marked path, and each already holding the children
    of one load of its root (the roots are loaded at once, nothing below them
    is). *)
Theorem on_mount_builds (s : App) (roots : list Path) :
  fs_root_paths (cwd s) (fs s) = Return roots →
  Forall (λ root, ∃ d, fs_is_dir (fs s) root = Return d) roots →
  let r := on_mount s in
  ∃ tops,
    r.1 = Return () ∧ fs r.2 = fs s ∧ syscalls r.2 = syscalls s ∧
    nodes r.2 !!! tree_root = MkNode (py "文件系统") None None true false tops None ∧
    Forall2 (λ t root,
               label (nodes r.2 !!! t) = py "📁 " ++ path_str root ∧
               data (nodes r.2 !!! t) = Some root ∧
               data_is_dir (nodes r.2 !!! t) = Some true ∧
               allow_expand (nodes r.2 !!! t) = true ∧
               parent (nodes r.2 !!! t) = Some tree_root ∧
               is_expanded (nodes r.2 !!! t) = false ∧
               child_nodes r.2 t = load_view (fs s) t (Some root) ∧
               Forall (λ c, children c = []) (child_nodes r.2 t))
            tops roots.
Proof.
  intros Hroots Hstat r.
  set (s0 := with_nodes [MkNode (py "文件系统") None None true false [] None] s).
  destruct (mount_roots_eval roots s0) as (s' & tops & Hrun & Hfs & _ & _ & Hsys
                                           & _ & _ & H0 & Htops); [simpl; lia|done|].
  assert (Hr : r = (Return (), s')).
  { subst r. unfold on_mount. rewrite bind_eval. unfold modify at 1. fold s0.
    rewrite bind_eval, get_root_paths_eval.
    change (cwd s0) with (cwd s). change (fs s0) with (fs s). rewrite Hroots.
    exact Hrun. }
  exists tops. rewrite Hr. cbn [fst snd]. split_and!; [done..| |].
  - unfold tree_root. by rewrite H0.
  - eapply Forall2_impl; [exact Htops|].
    intros t root (Hid & Hexp & Hview). unfold identity in Hid.
    injection Hid as Hl Hd Ht Ha Hp.
    change (fs s0) with (fs s) in Hfs. rewrite Hfs in Hview.
    split_and!; try done.
    rewrite Hview. eapply Forall_impl; [apply load_view_shape|].
    by intros c (_ & _ & ? & _).
Qed.

End Startup.

(** ** Where nothing is reloaded *)

Section Unrefreshed.
Context {lower : StrLower}.


(** X19: F5 with the cursor on a node that is no directory node and whose
    parent carries no directory attribute (the tree root, which has no
    parent at all) does nothing: no reload, no message and, unlike in every
    other case of the handler, no notification. *)
Theorem action_refresh_silent (s : App) (n : nat) :
  cursor_node s = Some n →
  is_dir_node (nodes s !!! n) = false →
  match parent (nodes s !!! n) with
  | Some par => has_dir_attr (nodes s !!! par) = false
  | None => True
  end →
  action_refresh s = (Return (), s).
Proof.
  intros Hcur Hnd Hpar. unfold action_refresh.
  rewrite bind_eval. unfold gets at 1. rewrite Hcur.
  rewrite bind_eval. unfold get_node at 1, gets at 1. rewrite Hnd.
  destruct (parent (nodes s !!! n)) as [par|]; [|done].
  rewrite bind_eval. unfold get_node at 1, gets at 1. by rewrite Hpar.
Qed.


(** X21: the first type check of [load_children] stands before the [try].
    When it raises, whatever the class of the exception, the exception leaves
    the loader: no placeholder is added and no object is created, and the
    node has already lost its children; the filesystem is untouched and the
    node keeps its expansion flag.  The handler of an expansion lets the same
    exception through. *)
Theorem load_children_guard_raises (s : App) (node : nat) (p : Path) (e : exn) :
  node < length (nodes s) →
  fs_is_dir (fs s) p = Raise e →
  let r := load_children node (Some p) s in
  r.1 = Raise e ∧
  children (nodes r.2 !!! node) = [] ∧
  length (nodes r.2) = length (nodes s) ∧
  is_expanded (nodes r.2 !!! node) = is_expanded (nodes s !!! node) ∧
  fs r.2 = fs s ∧ notifications r.2 = notifications s ∧
  (is_dir_node (nodes s !!! node) = true → data (nodes s !!! node) = Some p →
   on_tree_node_expanded node s = r).
Proof.
  intros Hlt He r. subst r. rewrite (load_children_stat_escapes _ _ _ _ He).
  cbn [fst snd]. split_and!.
  - done.
  - simpl. by rewrite list_lookup_total_alter_eq.
  - apply length_nodes_detach.
  - simpl. by rewrite list_lookup_total_alter_eq.
  - done.
  - done.
  - intros Hd Hdata. unfold on_tree_node_expanded.
    rewrite bind_eval. unfold get_node at 1, gets at 1. rewrite Hd, Hdata.
    by apply load_children_stat_escapes.
Qed.

End Unrefreshed.

(** ** The shape of the tree *)

Global Instance keeps_refl (I : App → Prop) : Reflexive (keeps I).
Proof. intros s H. exact H. Qed.

Global Instance keeps_trans (I : App → Prop) : Transitive (keeps I).
Proof. unfold keeps. intros s1 s2 s3 H1 H2 H. auto. Qed.

(** An update of one object that keeps its parent, keeps or drops its
    children, and keeps the agreement of the two directory tests. *)
Lemma tree_wf_alter (f : TreeNode → TreeNode) i s :
  (∀ n, parent (f n) = parent n) →
  (∀ n, children (f n) = children n ∨ children (f n) = []) →
  (has_dir_attr (nodes s !!! i) = is_dir_node (nodes s !!! i) →
   has_dir_attr (f (nodes s !!! i)) = is_dir_node (f (nodes s !!! i))) →
  tree_wf s → tree_wf (with_nodes (alter f i (nodes s)) s).
Proof.
  intros Hpar Hch Hattr Hwf j. simpl. rewrite length_alter. intros Hj.
  destruct (Hwf j Hj) as (Hnd & Hall & Hdir).
  assert (Hp : ∀ c, parent (alter f i (nodes s) !!! c) = parent (nodes s !!! c)).
  { intros c. rewrite list_lookup_total_alter.
    case_decide as Hc; [destruct Hc as [<- _]; apply Hpar|done]. }
  rewrite list_lookup_total_alter. case_decide as Hd.
  - destruct Hd as [<- _]. destruct (Hch (nodes s !!! i)) as [-> | ->].
    + split_and!; [done| |by apply Hattr].
      eapply Forall_impl; [exact Hall|]. intros c [? ?]. by rewrite Hp.
    + split_and!; [constructor|constructor|by apply Hattr].
  - split_and!; [done| |done].
    eapply Forall_impl; [exact Hall|]. intros c [? ?]. by rewrite Hp.
Qed.

Lemma tree_wf_update_node (f : TreeNode → TreeNode) i :
  (∀ n, identity (f n) = identity n) →
  (∀ n, children (f n) = children n ∨ children (f n) = []) →
  preserves (keeps tree_wf) (update_node i f).
Proof.
  intros Hid Hch s Hwf. simpl. apply tree_wf_alter; [|done| |done].
  - intros n. specialize (Hid n). unfold identity in Hid. congruence.
  - specialize (Hid (nodes s !!! i)). unfold identity in Hid.
    injection Hid as _ Hd Ha _ _.
    unfold has_dir_attr, is_dir_node. by rewrite Hd, Ha.
Qed.

(** A new object under [i]: it has no children, points to [i] and carries no
    directory attribute. *)
Lemma tree_wf_node_add i lbl d allow : preserves (keeps tree_wf) (node_add i lbl d allow).
Proof.
  intros s Hwf j. simpl. rewrite length_alter, length_app, Nat.add_1_r. intros Hj.
  set (new := MkNode lbl d None allow false [] (Some i)).
  assert (Hp : ∀ c, c < length (nodes s) →
                    parent (alter (add_children [length (nodes s)]) i (nodes s ++ [new]) !!! c)
                    = parent (nodes s !!! c)).
  { intros c Hc. rewrite list_lookup_total_alter.
    case_decide as Hic; [destruct Hic as [<- _]|]; simpl;
      by rewrite lookup_total_app_l. }
  assert (Hnew : (nodes s ++ [new]) !!! length (nodes s) = new).
  { rewrite lookup_total_app_r by lia. by rewrite Nat.sub_diag. }
  assert (Hpn : parent (alter (add_children [length (nodes s)]) i (nodes s ++ [new])
                          !!! length (nodes s)) = Some i).
  { rewrite list_lookup_total_alter.
    case_decide as Hic; [destruct Hic as [-> _]|]; simpl; by rewrite Hnew. }
  rewrite list_lookup_total_alter. case_decide as Hd.
  - destruct Hd as [<- _].
    destruct (decide (i < length (nodes s))) as [Hi|Hi].
    + rewrite lookup_total_app_l by done.
      destruct (Hwf i Hi) as (Hnd & Hall & Hdir). cbn [children add_children].
      split_and!.
      * apply NoDup_app. split_and!; [done| |apply NoDup_singleton].
        intros c Hc ->%list_elem_of_singleton.
        rewrite Forall_forall in Hall. destruct (Hall _ Hc). lia.
      * apply Forall_app. split.
        -- eapply Forall_impl; [exact Hall|]. intros c [Hc Hpc].
           split; [lia|]. by rewrite Hp.
        -- constructor; [|constructor]. split; [lia|exact Hpn].
      * exact Hdir.
    + assert (i = length (nodes s)) as -> by lia.
      rewrite Hnew. cbn [children add_children new app].
      split_and!; [apply NoDup_singleton| |done].
      constructor; [|constructor]. split; [lia|exact Hpn].
  - destruct (decide (j < length (nodes s))) as [Hjl|Hjl].
    + rewrite lookup_total_app_l by done.
      destruct (Hwf j Hjl) as (Hnd & Hall & Hdir).
      split_and!; [done| |done].
      eapply Forall_impl; [exact Hall|]. intros c [Hc Hpc].
      split; [lia|]. by rewrite Hp.
    + assert (j = length (nodes s)) as -> by lia.
      rewrite Hnew. split_and!; [constructor|constructor|done].
Qed.

(** A new directory node: the attribute is set on an object with a path. *)
Lemma tree_wf_node_add_tagged i lbl x allow :
  preserves (keeps tree_wf)
            (child ← node_add i lbl (Some x) allow; set_data_is_dir child true).
Proof.
  intros s Hwf. rewrite bind_eval.
  pose proof (tree_wf_node_add i lbl (Some x) allow s Hwf) as Hwf1.
  destruct (node_add i lbl (Some x) allow s) as [[c|e] s1] eqn:Hadd; [|done].
  injection Hadd as <- <-. cbn [fst snd] in Hwf1 |- *.
  unfold set_data_is_dir, update_node, modify. cbn [snd].
  apply tree_wf_alter; [done|by left| |exact Hwf1].
  intros _. simpl. rewrite list_lookup_total_alter.
  assert (Hnew : (nodes s ++ [MkNode lbl (Some x) None allow false [] (Some i)])
                   !!! length (nodes s)
                 = MkNode lbl (Some x) None allow false [] (Some i)).
  { rewrite lookup_total_app_r by lia. by rewrite Nat.sub_diag. }
  case_decide as Hic; [destruct Hic as [-> _]|]; by rewrite Hnew.
Qed.

Section TreeShape.
Context {lower : StrLower}.

Ltac wf_step :=
  lazymatch goal with
  | |- preserves ?R (_ ← node_add _ _ (Some _) _; set_data_is_dir _ true) =>
    apply tree_wf_node_add_tagged
  | |- preserves ?R (_ ≫= _) => apply (preserves_bind R); [|intros ?]
  | |- preserves ?R (try_except _ _) => apply (preserves_try_except R); [|intros ?]
  | |- preserves ?R (for_each _ _) => apply (preserves_for_each R); intros ?
  | |- preserves ?R (mret _) => apply (preserves_ret R)
  | |- preserves ?R (raise _) => apply (preserves_raise R)
  | |- preserves ?R (gets _) => apply (preserves_gets R)
  | |- preserves ?R (get_node _) => apply (preserves_gets R)
  | |- preserves ?R (fs_read _) => apply (preserves_fs_read R)
  | |- preserves ?R (path_resolve _) => apply (preserves_path_resolve R)
  | |- preserves ?R (sorted _ _ _) => apply (sorted_preserves R)
  | |- preserves _ (node_add _ _ _ _) => apply tree_wf_node_add
  | |- preserves _ (update_node _ clear_children) =>
    apply tree_wf_update_node; [done|by right]
  | |- preserves _ (update_node _ (with_expanded _)) =>
    apply tree_wf_update_node; [done|by left]
  | |- preserves _ (if ?b then _ else _) => destruct b
  | |- preserves _ (match ?x with _ => _ end) => destruct x
  | |- preserves _ _ => by intros ? ?
  end.

Lemma load_children_wf node path : preserves (keeps tree_wf) (load_children node path).
Proof.
  unfold load_children, remove_children, add_entry, path_is_dir, path_is_file,
    path_iterdir.
  repeat wf_step.
Qed.

Lemma fs_remove_wf c f : preserves (keeps tree_wf) (fs_remove c f).
Proof. intros s Hwf. unfold fs_remove. by destruct (f (fs s)). Qed.

Lemma launch_wf c : preserves (keeps tree_wf) (launch c).
Proof. intros s Hwf. unfold launch. by destruct (os_launch s c). Qed.

Lemma dispatch_wf e : preserves (keeps tree_wf) (dispatch e).
Proof.
  destruct e as [k|c|n|n|b]; unfold dispatch, on_button_pressed;
    unfold action_refresh, refresh_root, action_open_selected, open_file,
      action_delete_selected, on_tree_node_expanded, on_tree_node_double_clicked,
      handle_delete_confirm, refresh_parent, report_delete_error,
      expand, collapse, set_expanded, path_is_dir, path_is_file, path_exists,
      path_unlink, shutil_rmtree;
    repeat (first [ apply load_children_wf | apply fs_remove_wf | apply launch_wf
                  | wf_step ]).
Qed.

(** X22: start-up leaves a well-formed tree, whatever the filesystem answers
    and even when start-up ends in an exception. *)
Theorem on_mount_tree_wf (s : App) : tree_wf (on_mount s).2.
Proof.
  set (s0 := with_nodes [MkNode (py "文件系统") None None true false [] None] s).
  assert (H0 : tree_wf s0).
  { intros j Hj. simpl in Hj. assert (j = 0) as -> by lia.
    split_and!; [constructor|constructor|done]. }
  unfold on_mount. rewrite bind_eval. unfold modify at 1. fold s0.
  revert H0. generalize s0. clear s s0.
  change (preserves (keeps tree_wf)
            (roots ← get_root_paths;
             for_each roots
               (λ root,
                  node ← node_add tree_root (py "📁 " ++ path_str root) (Some root) true;
                  set_data_is_dir node true ;; load_children node (Some root)))).
  apply (preserves_bind (keeps tree_wf)).
  { unfold get_root_paths, path_exists.
    apply (preserves_bind (keeps tree_wf)); [repeat wf_step|intros c].
    destruct (endswith _ _); [|repeat wf_step].
    apply (preserves_fold_left (keeps tree_wf)); [|repeat wf_step].
    intros m' d Hm'. apply (preserves_bind (keeps tree_wf)); [exact Hm'|intros roots].
    repeat wf_step. }
  intros roots. apply (preserves_for_each (keeps tree_wf)). intros root s Hwf.
  rewrite bind_eval.
  pose proof (tree_wf_node_add_tagged tree_root (py "📁 " ++ path_str root) root true
                s Hwf) as Hwf2.
  rewrite bind_eval in Hwf2.
  destruct (node_add tree_root (py "📁 " ++ path_str root) (Some root) true s)
    as [[c|e] s1]; [|done].
  rewrite bind_eval.
  destruct (set_data_is_dir c true s1) as [[[]|e] s2]; [|done].
  cbn [fst snd] in Hwf2. by apply load_children_wf.
Qed.

(** X23: no event breaks the tree.  From a well-formed tree, every run, also
    one cut short by an exception, ends in a well-formed tree: no node lists
    a child twice, every listed child exists and has the listing node as
    parent, and a node carries the directory attribute exactly when it passes
    the full test of the handlers (attribute present, [True], path present). *)
Theorem run_events_tree_wf (es : list event) (s : App) :
  tree_wf s → tree_wf (run_events es s).2.
Proof.
  revert s. change (preserves (keeps tree_wf) (run_events es)).
  apply (preserves_for_each (keeps tree_wf)), dispatch_wf.
Qed.

End TreeShape.

(** ** The dialog and the cursor *)




Section DialogCursor.
Context {lower : StrLower}.







End DialogCursor.


(** * The further properties on concrete runs *)

Lemma only_confirmation_removes_witness :
  let s := with_cursor (Some 5) (started fs_example) in
  let e := Key (py "ctrl+d") in
  fs (dispatch e s).2 = fs s ∧
  (e ≠ Key (py "ctrl+o") → syscalls (dispatch e s).2 = syscalls s).
Proof.
  apply (only_confirmation_removes (Key (py "ctrl+d"))
           (with_cursor (Some 5) (started fs_example))).
  discriminate.
Defined.

Lemma load_children_children_wf_witness :
  let s := started fs_example in
  let r := load_children 2 (Some (posix ["home"%string])) s in
  NoDup (children (nodes r.2 !!! 2)) ∧
  Forall (λ c, length (nodes s) ≤ c < length (nodes r.2))
         (children (nodes r.2 !!! 2)) ∧
  Forall (λ c, parent c = Some 2 ∧ is_expanded c = false ∧ children c = [] ∧
               (allow_expand c = true ↔ data_is_dir c = Some true) ∧
               (data_is_dir c = Some true →
                ∃ x, data c = Some x ∧ fs_is_dir (fs s) x = Return true) ∧
               (data_is_dir c ≠ Some true → data_is_dir c = None))
         (child_nodes r.2 2).
Proof.
  apply (load_children_children_wf (started fs_example) 2 (Some (posix ["home"%string]))).
  vm_compute. lia.
Defined.

Lemma load_children_frame_witness :
  let s := with_fs fs_example_deleted (started fs_example) in
  let r := load_children 2 (Some (posix ["home"%string])) s in
  fs r.2 = fs s ∧ syscalls r.2 = syscalls s ∧ cursor_node r.2 = cursor_node s ∧
  screens r.2 = screens s ∧ notifications r.2 = notifications s ∧
  messages r.2 = messages s ∧ stdout r.2 = stdout s ∧
  ∀ j, j < length (nodes s) →
       label (nodes r.2 !!! j) = label (nodes s !!! j) ∧
       data (nodes r.2 !!! j) = data (nodes s !!! j) ∧
       data_is_dir (nodes r.2 !!! j) = data_is_dir (nodes s !!! j) ∧
       allow_expand (nodes r.2 !!! j) = allow_expand (nodes s !!! j) ∧
       parent (nodes r.2 !!! j) = parent (nodes s !!! j) ∧
       is_expanded (nodes r.2 !!! j) = is_expanded (nodes s !!! j).
Proof.
  apply (load_children_frame (with_fs fs_example_deleted (started fs_example)) 2
           (Some (posix ["home"%string]))).
  vm_compute. lia.
Defined.

Lemma load_children_not_directory_witness :
  let s := started fs_example in
  let r := load_children 2 (Some (posix ["home"; "Alpha.txt"]%string)) s in
  r.1 = Return () ∧ children (nodes r.2 !!! 2) = [] ∧
  length (nodes r.2) = length (nodes s).
Proof.
  apply (load_children_not_directory (started fs_example) 2
           (Some (posix ["home"; "Alpha.txt"]%string))).
  - vm_compute. lia.
  - intros p [= <-]. vm_compute. reflexivity.
Defined.

Lemma load_children_entry_stat_error_witness :
  let s := with_fs fs_stale (started fs_example) in
  let e := Exn OtherError (py "[Errno 116] Stale file handle: '/home/stale'") in
  let r := load_children 2 (Some (posix ["home"%string])) s in
  r.1 = Return () ∧
  child_nodes r.2 2
    = [MkNode (if bool_decide (e_class e = PermissionError) then py "[权限不足]"
               else py "[加载错误: " ++ take 20 (e_str e) ++ py "]")
              None None false false [] (Some 2)].
Proof.
  apply (load_children_entry_stat_error
           (with_fs fs_stale (started fs_example)) 2 (posix ["home"%string])
           (posix ["home"; "stale"]%string) [posix ["home"; "bravo"]%string]
           [posix ["home"; "alpha.txt"]%string]).
  - vm_compute. lia.
  - vm_compute. reflexivity.
  - vm_compute. reflexivity.
  - vm_compute. constructor; [|constructor]. exists true. reflexivity.
  - vm_compute. reflexivity.
Defined.

(** The label of that load: the message of the type check, cut to 20
    characters. *)
Example load_children_stale_label :
  label <$> child_nodes
              (run (load_children 2 (Some (posix ["home"%string])))
                   (with_fs fs_stale (started fs_example))) 2
  = [py "[加载错误: [Errno 116] Stale fi]"].
Proof. vm_compute. reflexivity. Qed.

Lemma action_open_selected_not_file_witness :
  let s := with_cursor (Some 2) (started fs_example) in
  let r := action_open_selected s in
  r.1 = Return () ∧
  syscalls r.2 = syscalls s ∧ stdout r.2 = stdout s ∧
  fs r.2 = fs s ∧ nodes r.2 = nodes s ∧
  notifications r.2
    = notifications s ++
      [Notify (match cursor_node s with
               | Some _ => py "请先选中一个文件"
               | None => py "未选中任何文件"
               end) (py "提示") 20].
Proof.
  apply (action_open_selected_not_file (with_cursor (Some 2) (started fs_example))).
  vm_compute. reflexivity.
Defined.

Lemma action_open_selected_file_witness :
  let s := no_opener (with_cursor (Some 5) (started fs_example)) in
  let p := posix ["home"; "Alpha.txt"]%string in
  let r := action_open_selected s in
  let failure := Notify (py "打开失败：" ++ name p) (py "错误") 30 in
  let success := Notify (py "已打开：" ++ name p) (py "成功") 20 in
  r.1 = Return () ∧ fs r.2 = fs s ∧ nodes r.2 = nodes s ∧
  match os_resolve s p with
  | Raise e =>
    syscalls r.2 = syscalls s ∧ notifications r.2 = notifications s ++ [failure]
  | Return resolved =>
    syscalls r.2 = syscalls s ++ opener_calls (platform s) resolved ∧
    notifications r.2
      = notifications s ++
        [match omap (os_launch s) (opener_calls (platform s) resolved) with
         | [] => success
         | _ => failure
         end]
  end.
Proof.
  apply (action_open_selected_file
           (no_opener (with_cursor (Some 5) (started fs_example))) 5
           (posix ["home"; "Alpha.txt"]%string)).
  - vm_compute. reflexivity.
  - vm_compute. reflexivity.
  - vm_compute. reflexivity.
Defined.

(** The two outcomes of ctrl+o on Alpha.txt: launched where the opener
    starts, notified as failed where it does not. *)
Example action_open_selected_outcomes :
  let s := with_cursor (Some 5) (started fs_example) in
  let p := posix ["home"; "Alpha.txt"]%string in
  (syscalls (run action_open_selected s) = [Popen [py "xdg-open"; py "/home/Alpha.txt"]] ∧
   notifications (run action_open_selected s)
     = [Notify (py "已打开：Alpha.txt") (py "成功") 20]) ∧
  (syscalls (run action_open_selected (no_opener s))
     = [Popen [py "xdg-open"; py "/home/Alpha.txt"]] ∧
   notifications (run action_open_selected (no_opener s))
     = [Notify (py "打开失败：Alpha.txt") (py "错误") 30]).
Proof. split; split; vm_compute; reflexivity. Qed.

Lemma on_tree_node_double_clicked_toggles_witness :
  let s := started fs_example in
  let r1 := on_tree_node_double_clicked 2 s in
  let r2 := on_tree_node_double_clicked 2 r1.2 in
  r1.1 = Return () ∧
  is_expanded (nodes r1.2 !!! 2) = negb (is_expanded (nodes s !!! 2)) ∧
  children (nodes r1.2 !!! 2) = children (nodes s !!! 2) ∧
  (∀ j, j ≠ 2 → nodes r1.2 !!! j = nodes s !!! j) ∧
  messages r1.2
    = messages s ++ [if is_expanded (nodes s !!! 2) then NodeCollapsed 2
                     else NodeExpanded 2] ∧
  fs r1.2 = fs s ∧ syscalls r1.2 = syscalls s ∧
  nodes r2.2 = nodes s.
Proof.
  apply (proj2 (on_tree_node_double_clicked_toggles (started fs_example) 2)).
  vm_compute. reflexivity.
Defined.

Lemma on_tree_node_expanded_loads_witness :
  let s := with_fs fs_example_deleted (started fs_example) in
  let r := on_tree_node_expanded 2 s in
  r.1 = Return () ∧
  child_nodes r.2 2 = load_view (fs s) 2 (data (nodes s !!! 2)) ∧
  is_expanded (nodes r.2 !!! 2) = is_expanded (nodes s !!! 2) ∧
  messages r.2 = messages s.
Proof.
  apply (proj2 (on_tree_node_expanded_loads
                  (with_fs fs_example_deleted (started fs_example)) 2)).
  - vm_compute. reflexivity.
  - vm_compute. exists true. reflexivity.
Defined.

Lemma refresh_then_expanded_event_witness :
  let s := with_cursor (Some 2) (started fs_example) in
  let s1 := (action_refresh s).2 in
  let r2 := on_tree_node_expanded 2 s1 in
  messages s1 = messages s ++ [NodeExpanded 2] ∧
  r2.1 = Return () ∧
  child_nodes r2.2 2 = child_nodes s1 2 ∧
  is_expanded (nodes r2.2 !!! 2) = true ∧
  fs r2.2 = fs s.
Proof.
  apply (refresh_then_expanded_event (with_cursor (Some 2) (started fs_example)) 2).
  - vm_compute. reflexivity.
  - vm_compute. reflexivity.
  - vm_compute. exists true. reflexivity.
Defined.

Lemma handle_delete_confirm_unlink_fails_witness :
  let s := with_cursor (Some 3) (started fs_locked) in
  let p := posix ["home"; "locked.txt"]%string in
  let e := Exn PermissionError (py "[Errno 13] Permission denied: '/home/locked.txt'") in
  let r := handle_delete_confirm true s in
  r.1 = Return () ∧
  syscalls r.2 = syscalls s ++ [Unlink p] ∧
  fs r.2 = fs s ∧ nodes r.2 = nodes s ∧ messages r.2 = messages s ∧
  notifications r.2 = notifications s ++ [delete_error_notification e] ∧
  stdout r.2 = stdout s ++ delete_error_output e ∧
  (e_class e = PermissionError →
   delete_error_notification e = Notify (py "权限不足，无法删除") (py "错误") 30) ∧
  (e_class e = FileNotFoundError →
   delete_error_notification e = Notify (py "文件/目录不存在") (py "错误") 30) ∧
  (e_class e ≠ PermissionError → e_class e ≠ FileNotFoundError →
   delete_error_notification e
     = Notify (py "删除失败：" ++ take 30 (e_str e)) (py "错误") 30 ∧
   delete_error_output e = [py "删除错误详情：" ++ e_str e]).
Proof.
  apply (handle_delete_confirm_unlink_fails
           (with_cursor (Some 3) (started fs_locked)) 3
           (posix ["home"; "locked.txt"]%string)).
  - vm_compute. reflexivity.
  - vm_compute. reflexivity.
  - vm_compute. reflexivity.
  - vm_compute. reflexivity.
Defined.

Lemma handle_delete_confirm_no_path_witness :
  let s := with_cursor (Some 0) (started fs_example) in
  let r := handle_delete_confirm true s in
  let msg := py "'NoneType' object has no attribute 'is_file'" in
  r.1 = Return () ∧
  syscalls r.2 = syscalls s ∧ fs r.2 = fs s ∧ nodes r.2 = nodes s ∧
  notifications r.2
    = notifications s ++ [Notify (py "删除失败：" ++ take 30 msg) (py "错误") 30] ∧
  stdout r.2 = stdout s ++ [py "删除错误详情：" ++ msg].
Proof.
  apply (handle_delete_confirm_no_path (with_cursor (Some 0) (started fs_example)) 0).
  - vm_compute. reflexivity.
  - vm_compute. reflexivity.
Defined.

Lemma handle_delete_confirm_directory_witness :
  let s := with_cursor (Some 3) (started fs_example) in
  let p := posix ["home"; "bravo"]%string in
  let r := handle_delete_confirm true s in
  r.1 = Return () ∧
  syscalls r.2 = syscalls s ++ [Rmtree p] ∧
  fs r.2 = fs_example_pruned ∧
  child_nodes r.2 2 = load_view fs_example_pruned 2 (data (nodes s !!! 2)) ∧
  is_expanded (nodes r.2 !!! 2) = true ∧
  Forall (λ c, ∀ x, data c = Some x → is_under p x = false) (child_nodes r.2 2) ∧
  notifications r.2
    = notifications s ++ [Notify (py "已删除：" ++ name p) (py "删除成功") 20].
Proof.
  apply (handle_delete_confirm_directory
           (with_cursor (Some 3) (started fs_example)) 3 2
           (posix ["home"; "bravo"]%string) fs_example_pruned).
  - vm_compute. reflexivity.
  - vm_compute. reflexivity.
  - vm_compute. reflexivity.
  - vm_compute. reflexivity.
  - vm_compute. reflexivity.
  - vm_compute. reflexivity.
  - vm_compute. exists true. reflexivity.
Defined.

Lemma on_button_pressed_cancel_witness :
  let s := run action_delete_selected (with_cursor (Some 5) (started fs_example)) in
  let r := on_button_pressed (py "cancel") s in
  r.1 = Return () ∧
  screens r.2 = tail (screens s) ∧
  fs r.2 = fs s ∧ nodes r.2 = nodes s ∧ syscalls r.2 = syscalls s ∧
  cursor_node r.2 = cursor_node s ∧
  notifications r.2 = notifications s ++ [Notify (py "已取消删除") (py "提示") 15].
Proof.
  apply (on_button_pressed_cancel
           (run action_delete_selected (with_cursor (Some 5) (started fs_example)))
           (py "cancel")).
  intros H. vm_compute in H. discriminate H.
Defined.

Lemma get_root_paths_roots_witness :
  let r := get_root_paths boot_windows in
  r.2 = boot_windows ∧
  r.1 = Return (filter (λ p, path_present fs_windows p = true) drive_paths) ∧
  filter (λ p, path_present fs_windows p = true) drive_paths
    = [windows "C" []; windows "E" []].
Proof.
  pose proof (get_root_paths_roots boot_windows) as (H1 & _ & H3).
  split; [exact H1|]. split.
  - apply H3.
    + vm_compute. reflexivity.
    + vm_compute. repeat (constructor; [eexists; reflexivity|]). constructor.
  - vm_compute. reflexivity.
Defined.

Lemma on_mount_builds_witness :
  let s := boot_windows in
  let roots := [windows "C" []; windows "E" []] in
  let r := on_mount s in
  ∃ tops,
    r.1 = Return () ∧ fs r.2 = fs s ∧ syscalls r.2 = syscalls s ∧
    nodes r.2 !!! tree_root = MkNode (py "文件系统") None None true false tops None ∧
    Forall2 (λ t root,
               label (nodes r.2 !!! t) = py "📁 " ++ path_str root ∧
               data (nodes r.2 !!! t) = Some root ∧
               data_is_dir (nodes r.2 !!! t) = Some true ∧
               allow_expand (nodes r.2 !!! t) = true ∧
               parent (nodes r.2 !!! t) = Some tree_root ∧
               is_expanded (nodes r.2 !!! t) = false ∧
               child_nodes r.2 t = load_view (fs s) t (Some root) ∧
               Forall (λ c, children c = []) (child_nodes r.2 t))
            tops roots.
Proof.
  apply (on_mount_builds boot_windows [windows "C" []; windows "E" []]).
  - vm_compute. reflexivity.
  - vm_compute. repeat (constructor; [eexists; reflexivity|]). constructor.
Defined.

(** The tree of the Windows host after start-up: the two drives, each with
    its entries, directories first. *)
Example on_mount_windows :
  label <$> nodes (run on_mount boot_windows)
  = [py "文件系统"; py "📁 C:\"; py "📁 Users"; py "boot.ini"; py "📁 E:\"; py "📁 data"].
Proof. vm_compute. reflexivity. Qed.

Lemma action_refresh_silent_witness :
  let s := with_cursor (Some tree_root) (started fs_example) in
  action_refresh s = (Return (), s).
Proof.
  apply (action_refresh_silent (with_cursor (Some tree_root) (started fs_example))
           tree_root).
  - vm_compute. reflexivity.
  - vm_compute. reflexivity.
  - vm_compute. exact I.
Defined.


Lemma load_children_guard_raises_witness :
  let s := with_fs fs_unreadable (started fs_example) in
  let p := posix ["home"%string] in
  let e := Exn PermissionError (py "[Errno 13] Permission denied: '/home'") in
  let r := load_children 2 (Some p) s in
  r.1 = Raise e ∧
  children (nodes r.2 !!! 2) = [] ∧
  length (nodes r.2) = length (nodes s) ∧
  is_expanded (nodes r.2 !!! 2) = is_expanded (nodes s !!! 2) ∧
  fs r.2 = fs s ∧ notifications r.2 = notifications s ∧
  on_tree_node_expanded 2 s = r.
Proof.
  intros s p e r.
  destruct (load_children_guard_raises s 2 p e)
    as (H1 & H2 & H3 & H4 & H5 & H6 & H7).
  - vm_compute. lia.
  - vm_compute. reflexivity.
  - split; [exact H1|]. split; [exact H2|]. split; [exact H3|]. split; [exact H4|].
    split; [exact H5|]. split; [exact H6|].
    apply H7; vm_compute; reflexivity.
Defined.

Lemma run_events_tree_wf_witness :
  tree_wf (run_events [CursorMoved (Some 5); Key (py "ctrl+d");
                       ButtonPressed (py "delete"); Key (py "f5")]
                      (started fs_example)).2.
Proof.
  apply (run_events_tree_wf _ (started fs_example)).
  intros j Hj. vm_compute in Hj.
  do 7 (destruct j as [|j]; [apply (bool_decide_unpack _); vm_compute; exact I|]).
  lia.
Defined.

(** The tree after that run: Alpha.txt is gone from [/home]; the children
    are the objects of the third load of [/home] (expansion, deletion, F5 on
    the node of the removed file, which refreshes its parent). *)
Example run_events_delete_refresh :
  let s := (run_events [CursorMoved (Some 5); Key (py "ctrl+d");
                        ButtonPressed (py "delete"); Key (py "f5")]
                       (started fs_example)).2 in
  label <$> child_nodes s 2 = [py "📁 bravo"; py "📁 charlie"; py "alpha.txt"] ∧
  children (nodes s !!! 2) = [10; 11; 12] ∧
  fs s = fs_example_deleted.
Proof. vm_compute. done. Qed.

Lemma handle_delete_confirm_parent_denied_witness :
  let s := with_fs fs_home_denied (with_cursor (Some 5) (started fs_example)) in
  let p := posix ["home"; "Alpha.txt"]%string in
  let e := Exn PermissionError (py "[Errno 13] Permission denied: '/home'") in
  let r := handle_delete_confirm true s in
  r.1 = Return () ∧
  syscalls r.2 = syscalls s ++ [Unlink p] ∧
  fs_lookup (fs r.2) p = None ∧
  children (nodes r.2 !!! 2) = [] ∧
  is_expanded (nodes r.2 !!! 2) = is_expanded (nodes s !!! 2) ∧
  messages r.2 = messages s ∧
  notifications r.2 = notifications s ++ [delete_error_notification e] ∧
  stdout r.2 = stdout s ++ delete_error_output e.
Proof.
  intros s p e r.
  assert (Hunlink : fs_unlink (fs s) p
                    = Return (filter (λ qi, qi.1 ≠ p) fs_home_denied))
    by (vm_compute; reflexivity).
  destruct (handle_delete_confirm_parent_denied s 5 2 p (posix ["home"%string]) _ e
              eq_refl eq_refl eq_refl Hunlink)
    as (H1 & H2 & _ & H4 & H5 & H6 & H7 & H8 & H9).
  - vm_compute. reflexivity.
  - vm_compute. reflexivity.
  - vm_compute. reflexivity.
  - vm_compute. reflexivity.
  - split; [exact H1|]. split; [exact H2|]. split; [exact H4|]. split; [exact H5|].
    split; [exact H6|]. split; [exact H7|]. split; [exact H8|exact H9].
Defined.

(** That run: the file is removed and the failure of the reload is shown as
    a refused deletion. *)
Example delete_parent_denied_run :
  let s := with_fs fs_home_denied (with_cursor (Some 5) (started fs_example)) in
  let r := handle_delete_confirm true s in
  fs_exists (fs r.2) (posix ["home"; "Alpha.txt"]%string) = Return false ∧
  notifications r.2 = [Notify (py "权限不足，无法删除") (py "错误") 30] ∧
  child_nodes r.2 2 = [].
Proof. vm_compute. done. Qed.


